(** * fix_fft: fixed-point in-place decimation-in-time FFT (1024 points)

    Shallow embedding of [src/fix_fft.c].  Machine integers are values of
    [Z]; every conversion the C code performs implicitly (narrowing a 32-bit
    [int] result into an [int16_t] or [uint16_t] variable) is written out.
    The sample buffers [fr] and [fi] are lists of [Z], read and written by
    index. *)

From Stdlib Require Import ZArith List Lia Bool.
From stdpp Require Import base list numbers fin_maps zmap.
Import ListNotations.
Local Open Scope Z_scope.

(** ** Machine integers *)

(** Conversion to [int16_t]: two's complement wrap-around modulo 2^16. *)
Definition int16_t (z : Z) : Z := (z + 32768) mod 65536 - 32768.

(** Conversion to [uint16_t]. *)
Definition uint16_t (z : Z) : Z := z mod 65536.

(** Conversion to [int32_t]. *)
Definition int32_t (z : Z) : Z := (z + 2147483648) mod 4294967296 - 2147483648.

(** The values an [int16_t] variable can hold. *)
Definition is_int16 (z : Z) : Prop := -32768 <= z <= 32767.

(** A sample buffer all of whose cells hold [int16_t] values. *)
Definition int16_buffer (a : list Z) : Prop := Forall is_int16 a.

(** ** Arrays *)

(** [a[i]] for an index inside the array. *)
Definition aget (a : list Z) (i : Z) : Z := a !!! Z.to_nat i.

(** [a[i] = v] for an index inside the array. *)
Definition aset (a : list Z) (i v : Z) : list Z := <[Z.to_nat i := v]> a.

(** ** Constants and tables *)

(** Modelled from the spec: [fix_fft.h], which defines [FFT_SIZE] and
    [FFT_ORDER], is not among the sources.  The spec fixes N = 1024 and
    log2(N) = 10 stages, as does the comment "The size is fixed at 1024". *)
Definition FFT_SIZE : Z := 1024.
Definition FFT_ORDER : Z := 10.

(** Fixed point Sine lookup table, declared [int16_t Sine[3*FFT_SIZE/4]]. *)
Definition Sine : list Z :=
  [
    0; 201; 402; 603; 804; 1005; 1206; 1406;
    1607; 1808; 2009; 2209; 2410; 2610; 2811; 3011;
    3211; 3411; 3611; 3811; 4011; 4210; 4409; 4608;
    4807; 5006; 5205; 5403; 5601; 5799; 5997; 6195;
    6392; 6589; 6786; 6982; 7179; 7375; 7571; 7766;
    7961; 8156; 8351; 8545; 8739; 8932; 9126; 9319;
    9511; 9703; 9895; 10087; 10278; 10469; 10659; 10849;
    11038; 11227; 11416; 11604; 11792; 11980; 12166; 12353;
    12539; 12724; 12909; 13094; 13278; 13462; 13645; 13827;
    14009; 14191; 14372; 14552; 14732; 14911; 15090; 15268;
    15446; 15623; 15799; 15975; 16150; 16325; 16499; 16672;
    16845; 17017; 17189; 17360; 17530; 17699; 17868; 18036;
    18204; 18371; 18537; 18702; 18867; 19031; 19194; 19357;
    19519; 19680; 19840; 20000; 20159; 20317; 20474; 20631;
    20787; 20942; 21096; 21249; 21402; 21554; 21705; 21855;
    22004; 22153; 22301; 22448; 22594; 22739; 22883; 23027;
    23169; 23311; 23452; 23592; 23731; 23869; 24006; 24143;
    24278; 24413; 24546; 24679; 24811; 24942; 25072; 25201;
    25329; 25456; 25582; 25707; 25831; 25954; 26077; 26198;
    26318; 26437; 26556; 26673; 26789; 26905; 27019; 27132;
    27244; 27355; 27466; 27575; 27683; 27790; 27896; 28001;
    28105; 28208; 28309; 28410; 28510; 28608; 28706; 28802;
    28897; 28992; 29085; 29177; 29268; 29358; 29446; 29534;
    29621; 29706; 29790; 29873; 29955; 30036; 30116; 30195;
    30272; 30349; 30424; 30498; 30571; 30643; 30713; 30783;
    30851; 30918; 30984; 31049; 31113; 31175; 31236; 31297;
    31356; 31413; 31470; 31525; 31580; 31633; 31684; 31735;
    31785; 31833; 31880; 31926; 31970; 32014; 32056; 32097;
    32137; 32176; 32213; 32249; 32284; 32318; 32350; 32382;
    32412; 32441; 32468; 32495; 32520; 32544; 32567; 32588;
    32609; 32628; 32646; 32662; 32678; 32692; 32705; 32717;
    32727; 32736; 32744; 32751; 32757; 32761; 32764; 32766;
    32767; 32766; 32764; 32761; 32757; 32751; 32744; 32736;
    32727; 32717; 32705; 32692; 32678; 32662; 32646; 32628;
    32609; 32588; 32567; 32544; 32520; 32495; 32468; 32441;
    32412; 32382; 32350; 32318; 32284; 32249; 32213; 32176;
    32137; 32097; 32056; 32014; 31970; 31926; 31880; 31833;
    31785; 31735; 31684; 31633; 31580; 31525; 31470; 31413;
    31356; 31297; 31236; 31175; 31113; 31049; 30984; 30918;
    30851; 30783; 30713; 30643; 30571; 30498; 30424; 30349;
    30272; 30195; 30116; 30036; 29955; 29873; 29790; 29706;
    29621; 29534; 29446; 29358; 29268; 29177; 29085; 28992;
    28897; 28802; 28706; 28608; 28510; 28410; 28309; 28208;
    28105; 28001; 27896; 27790; 27683; 27575; 27466; 27355;
    27244; 27132; 27019; 26905; 26789; 26673; 26556; 26437;
    26318; 26198; 26077; 25954; 25831; 25707; 25582; 25456;
    25329; 25201; 25072; 24942; 24811; 24679; 24546; 24413;
    24278; 24143; 24006; 23869; 23731; 23592; 23452; 23311;
    23169; 23027; 22883; 22739; 22594; 22448; 22301; 22153;
    22004; 21855; 21705; 21554; 21402; 21249; 21096; 20942;
    20787; 20631; 20474; 20317; 20159; 20000; 19840; 19680;
    19519; 19357; 19194; 19031; 18867; 18702; 18537; 18371;
    18204; 18036; 17868; 17699; 17530; 17360; 17189; 17017;
    16845; 16672; 16499; 16325; 16150; 15975; 15799; 15623;
    15446; 15268; 15090; 14911; 14732; 14552; 14372; 14191;
    14009; 13827; 13645; 13462; 13278; 13094; 12909; 12724;
    12539; 12353; 12166; 11980; 11792; 11604; 11416; 11227;
    11038; 10849; 10659; 10469; 10278; 10087; 9895; 9703;
    9511; 9319; 9126; 8932; 8739; 8545; 8351; 8156;
    7961; 7766; 7571; 7375; 7179; 6982; 6786; 6589;
    6392; 6195; 5997; 5799; 5601; 5403; 5205; 5006;
    4807; 4608; 4409; 4210; 4011; 3811; 3611; 3411;
    3211; 3011; 2811; 2610; 2410; 2209; 2009; 1808;
    1607; 1406; 1206; 1005; 804; 603; 402; 201;
    0; (-201); (-402); (-603); (-804); (-1005); (-1206); (-1406);
    (-1607); (-1808); (-2009); (-2209); (-2410); (-2610); (-2811); (-3011);
    (-3211); (-3411); (-3611); (-3811); (-4011); (-4210); (-4409); (-4608);
    (-4807); (-5006); (-5205); (-5403); (-5601); (-5799); (-5997); (-6195);
    (-6392); (-6589); (-6786); (-6982); (-7179); (-7375); (-7571); (-7766);
    (-7961); (-8156); (-8351); (-8545); (-8739); (-8932); (-9126); (-9319);
    (-9511); (-9703); (-9895); (-10087); (-10278); (-10469); (-10659); (-10849);
    (-11038); (-11227); (-11416); (-11604); (-11792); (-11980); (-12166); (-12353);
    (-12539); (-12724); (-12909); (-13094); (-13278); (-13462); (-13645); (-13827);
    (-14009); (-14191); (-14372); (-14552); (-14732); (-14911); (-15090); (-15268);
    (-15446); (-15623); (-15799); (-15975); (-16150); (-16325); (-16499); (-16672);
    (-16845); (-17017); (-17189); (-17360); (-17530); (-17699); (-17868); (-18036);
    (-18204); (-18371); (-18537); (-18702); (-18867); (-19031); (-19194); (-19357);
    (-19519); (-19680); (-19840); (-20000); (-20159); (-20317); (-20474); (-20631);
    (-20787); (-20942); (-21096); (-21249); (-21402); (-21554); (-21705); (-21855);
    (-22004); (-22153); (-22301); (-22448); (-22594); (-22739); (-22883); (-23027);
    (-23169); (-23311); (-23452); (-23592); (-23731); (-23869); (-24006); (-24143);
    (-24278); (-24413); (-24546); (-24679); (-24811); (-24942); (-25072); (-25201);
    (-25329); (-25456); (-25582); (-25707); (-25831); (-25954); (-26077); (-26198);
    (-26318); (-26437); (-26556); (-26673); (-26789); (-26905); (-27019); (-27132);
    (-27244); (-27355); (-27466); (-27575); (-27683); (-27790); (-27896); (-28001);
    (-28105); (-28208); (-28309); (-28410); (-28510); (-28608); (-28706); (-28802);
    (-28897); (-28992); (-29085); (-29177); (-29268); (-29358); (-29446); (-29534);
    (-29621); (-29706); (-29790); (-29873); (-29955); (-30036); (-30116); (-30195);
    (-30272); (-30349); (-30424); (-30498); (-30571); (-30643); (-30713); (-30783);
    (-30851); (-30918); (-30984); (-31049); (-31113); (-31175); (-31236); (-31297);
    (-31356); (-31413); (-31470); (-31525); (-31580); (-31633); (-31684); (-31735);
    (-31785); (-31833); (-31880); (-31926); (-31970); (-32014); (-32056); (-32097);
    (-32137); (-32176); (-32213); (-32249); (-32284); (-32318); (-32350); (-32382);
    (-32412); (-32441); (-32468); (-32495); (-32520); (-32544); (-32567); (-32588);
    (-32609); (-32628); (-32646); (-32662); (-32678); (-32692); (-32705); (-32717);
    (-32727); (-32736); (-32744); (-32751); (-32757); (-32761); (-32764); (-32766)
  ].

(** Bit reverse lookup table, declared [int16_t bitrev[FFT_SIZE]]. *)
Definition bitrev : list Z :=
  [
    0x000; 0x200; 0x100; 0x300; 0x080; 0x280; 0x180; 0x380; 0x040; 0x240; 0x140; 0x340; 0x0c0; 0x2c0; 0x1c0; 0x3c0;
    0x020; 0x220; 0x120; 0x320; 0x0a0; 0x2a0; 0x1a0; 0x3a0; 0x060; 0x260; 0x160; 0x360; 0x0e0; 0x2e0; 0x1e0; 0x3e0;
    0x010; 0x210; 0x110; 0x310; 0x090; 0x290; 0x190; 0x390; 0x050; 0x250; 0x150; 0x350; 0x0d0; 0x2d0; 0x1d0; 0x3d0;
    0x030; 0x230; 0x130; 0x330; 0x0b0; 0x2b0; 0x1b0; 0x3b0; 0x070; 0x270; 0x170; 0x370; 0x0f0; 0x2f0; 0x1f0; 0x3f0;
    0x008; 0x208; 0x108; 0x308; 0x088; 0x288; 0x188; 0x388; 0x048; 0x248; 0x148; 0x348; 0x0c8; 0x2c8; 0x1c8; 0x3c8;
    0x028; 0x228; 0x128; 0x328; 0x0a8; 0x2a8; 0x1a8; 0x3a8; 0x068; 0x268; 0x168; 0x368; 0x0e8; 0x2e8; 0x1e8; 0x3e8;
    0x018; 0x218; 0x118; 0x318; 0x098; 0x298; 0x198; 0x398; 0x058; 0x258; 0x158; 0x358; 0x0d8; 0x2d8; 0x1d8; 0x3d8;
    0x038; 0x238; 0x138; 0x338; 0x0b8; 0x2b8; 0x1b8; 0x3b8; 0x078; 0x278; 0x178; 0x378; 0x0f8; 0x2f8; 0x1f8; 0x3f8;
    0x004; 0x204; 0x104; 0x304; 0x084; 0x284; 0x184; 0x384; 0x044; 0x244; 0x144; 0x344; 0x0c4; 0x2c4; 0x1c4; 0x3c4;
    0x024; 0x224; 0x124; 0x324; 0x0a4; 0x2a4; 0x1a4; 0x3a4; 0x064; 0x264; 0x164; 0x364; 0x0e4; 0x2e4; 0x1e4; 0x3e4;
    0x014; 0x214; 0x114; 0x314; 0x094; 0x294; 0x194; 0x394; 0x054; 0x254; 0x154; 0x354; 0x0d4; 0x2d4; 0x1d4; 0x3d4;
    0x034; 0x234; 0x134; 0x334; 0x0b4; 0x2b4; 0x1b4; 0x3b4; 0x074; 0x274; 0x174; 0x374; 0x0f4; 0x2f4; 0x1f4; 0x3f4;
    0x00c; 0x20c; 0x10c; 0x30c; 0x08c; 0x28c; 0x18c; 0x38c; 0x04c; 0x24c; 0x14c; 0x34c; 0x0cc; 0x2cc; 0x1cc; 0x3cc;
    0x02c; 0x22c; 0x12c; 0x32c; 0x0ac; 0x2ac; 0x1ac; 0x3ac; 0x06c; 0x26c; 0x16c; 0x36c; 0x0ec; 0x2ec; 0x1ec; 0x3ec;
    0x01c; 0x21c; 0x11c; 0x31c; 0x09c; 0x29c; 0x19c; 0x39c; 0x05c; 0x25c; 0x15c; 0x35c; 0x0dc; 0x2dc; 0x1dc; 0x3dc;
    0x03c; 0x23c; 0x13c; 0x33c; 0x0bc; 0x2bc; 0x1bc; 0x3bc; 0x07c; 0x27c; 0x17c; 0x37c; 0x0fc; 0x2fc; 0x1fc; 0x3fc;
    0x002; 0x202; 0x102; 0x302; 0x082; 0x282; 0x182; 0x382; 0x042; 0x242; 0x142; 0x342; 0x0c2; 0x2c2; 0x1c2; 0x3c2;
    0x022; 0x222; 0x122; 0x322; 0x0a2; 0x2a2; 0x1a2; 0x3a2; 0x062; 0x262; 0x162; 0x362; 0x0e2; 0x2e2; 0x1e2; 0x3e2;
    0x012; 0x212; 0x112; 0x312; 0x092; 0x292; 0x192; 0x392; 0x052; 0x252; 0x152; 0x352; 0x0d2; 0x2d2; 0x1d2; 0x3d2;
    0x032; 0x232; 0x132; 0x332; 0x0b2; 0x2b2; 0x1b2; 0x3b2; 0x072; 0x272; 0x172; 0x372; 0x0f2; 0x2f2; 0x1f2; 0x3f2;
    0x00a; 0x20a; 0x10a; 0x30a; 0x08a; 0x28a; 0x18a; 0x38a; 0x04a; 0x24a; 0x14a; 0x34a; 0x0ca; 0x2ca; 0x1ca; 0x3ca;
    0x02a; 0x22a; 0x12a; 0x32a; 0x0aa; 0x2aa; 0x1aa; 0x3aa; 0x06a; 0x26a; 0x16a; 0x36a; 0x0ea; 0x2ea; 0x1ea; 0x3ea;
    0x01a; 0x21a; 0x11a; 0x31a; 0x09a; 0x29a; 0x19a; 0x39a; 0x05a; 0x25a; 0x15a; 0x35a; 0x0da; 0x2da; 0x1da; 0x3da;
    0x03a; 0x23a; 0x13a; 0x33a; 0x0ba; 0x2ba; 0x1ba; 0x3ba; 0x07a; 0x27a; 0x17a; 0x37a; 0x0fa; 0x2fa; 0x1fa; 0x3fa;
    0x006; 0x206; 0x106; 0x306; 0x086; 0x286; 0x186; 0x386; 0x046; 0x246; 0x146; 0x346; 0x0c6; 0x2c6; 0x1c6; 0x3c6;
    0x026; 0x226; 0x126; 0x326; 0x0a6; 0x2a6; 0x1a6; 0x3a6; 0x066; 0x266; 0x166; 0x366; 0x0e6; 0x2e6; 0x1e6; 0x3e6;
    0x016; 0x216; 0x116; 0x316; 0x096; 0x296; 0x196; 0x396; 0x056; 0x256; 0x156; 0x356; 0x0d6; 0x2d6; 0x1d6; 0x3d6;
    0x036; 0x236; 0x136; 0x336; 0x0b6; 0x2b6; 0x1b6; 0x3b6; 0x076; 0x276; 0x176; 0x376; 0x0f6; 0x2f6; 0x1f6; 0x3f6;
    0x00e; 0x20e; 0x10e; 0x30e; 0x08e; 0x28e; 0x18e; 0x38e; 0x04e; 0x24e; 0x14e; 0x34e; 0x0ce; 0x2ce; 0x1ce; 0x3ce;
    0x02e; 0x22e; 0x12e; 0x32e; 0x0ae; 0x2ae; 0x1ae; 0x3ae; 0x06e; 0x26e; 0x16e; 0x36e; 0x0ee; 0x2ee; 0x1ee; 0x3ee;
    0x01e; 0x21e; 0x11e; 0x31e; 0x09e; 0x29e; 0x19e; 0x39e; 0x05e; 0x25e; 0x15e; 0x35e; 0x0de; 0x2de; 0x1de; 0x3de;
    0x03e; 0x23e; 0x13e; 0x33e; 0x0be; 0x2be; 0x1be; 0x3be; 0x07e; 0x27e; 0x17e; 0x37e; 0x0fe; 0x2fe; 0x1fe; 0x3fe;
    0x001; 0x201; 0x101; 0x301; 0x081; 0x281; 0x181; 0x381; 0x041; 0x241; 0x141; 0x341; 0x0c1; 0x2c1; 0x1c1; 0x3c1;
    0x021; 0x221; 0x121; 0x321; 0x0a1; 0x2a1; 0x1a1; 0x3a1; 0x061; 0x261; 0x161; 0x361; 0x0e1; 0x2e1; 0x1e1; 0x3e1;
    0x011; 0x211; 0x111; 0x311; 0x091; 0x291; 0x191; 0x391; 0x051; 0x251; 0x151; 0x351; 0x0d1; 0x2d1; 0x1d1; 0x3d1;
    0x031; 0x231; 0x131; 0x331; 0x0b1; 0x2b1; 0x1b1; 0x3b1; 0x071; 0x271; 0x171; 0x371; 0x0f1; 0x2f1; 0x1f1; 0x3f1;
    0x009; 0x209; 0x109; 0x309; 0x089; 0x289; 0x189; 0x389; 0x049; 0x249; 0x149; 0x349; 0x0c9; 0x2c9; 0x1c9; 0x3c9;
    0x029; 0x229; 0x129; 0x329; 0x0a9; 0x2a9; 0x1a9; 0x3a9; 0x069; 0x269; 0x169; 0x369; 0x0e9; 0x2e9; 0x1e9; 0x3e9;
    0x019; 0x219; 0x119; 0x319; 0x099; 0x299; 0x199; 0x399; 0x059; 0x259; 0x159; 0x359; 0x0d9; 0x2d9; 0x1d9; 0x3d9;
    0x039; 0x239; 0x139; 0x339; 0x0b9; 0x2b9; 0x1b9; 0x3b9; 0x079; 0x279; 0x179; 0x379; 0x0f9; 0x2f9; 0x1f9; 0x3f9;
    0x005; 0x205; 0x105; 0x305; 0x085; 0x285; 0x185; 0x385; 0x045; 0x245; 0x145; 0x345; 0x0c5; 0x2c5; 0x1c5; 0x3c5;
    0x025; 0x225; 0x125; 0x325; 0x0a5; 0x2a5; 0x1a5; 0x3a5; 0x065; 0x265; 0x165; 0x365; 0x0e5; 0x2e5; 0x1e5; 0x3e5;
    0x015; 0x215; 0x115; 0x315; 0x095; 0x295; 0x195; 0x395; 0x055; 0x255; 0x155; 0x355; 0x0d5; 0x2d5; 0x1d5; 0x3d5;
    0x035; 0x235; 0x135; 0x335; 0x0b5; 0x2b5; 0x1b5; 0x3b5; 0x075; 0x275; 0x175; 0x375; 0x0f5; 0x2f5; 0x1f5; 0x3f5;
    0x00d; 0x20d; 0x10d; 0x30d; 0x08d; 0x28d; 0x18d; 0x38d; 0x04d; 0x24d; 0x14d; 0x34d; 0x0cd; 0x2cd; 0x1cd; 0x3cd;
    0x02d; 0x22d; 0x12d; 0x32d; 0x0ad; 0x2ad; 0x1ad; 0x3ad; 0x06d; 0x26d; 0x16d; 0x36d; 0x0ed; 0x2ed; 0x1ed; 0x3ed;
    0x01d; 0x21d; 0x11d; 0x31d; 0x09d; 0x29d; 0x19d; 0x39d; 0x05d; 0x25d; 0x15d; 0x35d; 0x0dd; 0x2dd; 0x1dd; 0x3dd;
    0x03d; 0x23d; 0x13d; 0x33d; 0x0bd; 0x2bd; 0x1bd; 0x3bd; 0x07d; 0x27d; 0x17d; 0x37d; 0x0fd; 0x2fd; 0x1fd; 0x3fd;
    0x003; 0x203; 0x103; 0x303; 0x083; 0x283; 0x183; 0x383; 0x043; 0x243; 0x143; 0x343; 0x0c3; 0x2c3; 0x1c3; 0x3c3;
    0x023; 0x223; 0x123; 0x323; 0x0a3; 0x2a3; 0x1a3; 0x3a3; 0x063; 0x263; 0x163; 0x363; 0x0e3; 0x2e3; 0x1e3; 0x3e3;
    0x013; 0x213; 0x113; 0x313; 0x093; 0x293; 0x193; 0x393; 0x053; 0x253; 0x153; 0x353; 0x0d3; 0x2d3; 0x1d3; 0x3d3;
    0x033; 0x233; 0x133; 0x333; 0x0b3; 0x2b3; 0x1b3; 0x3b3; 0x073; 0x273; 0x173; 0x373; 0x0f3; 0x2f3; 0x1f3; 0x3f3;
    0x00b; 0x20b; 0x10b; 0x30b; 0x08b; 0x28b; 0x18b; 0x38b; 0x04b; 0x24b; 0x14b; 0x34b; 0x0cb; 0x2cb; 0x1cb; 0x3cb;
    0x02b; 0x22b; 0x12b; 0x32b; 0x0ab; 0x2ab; 0x1ab; 0x3ab; 0x06b; 0x26b; 0x16b; 0x36b; 0x0eb; 0x2eb; 0x1eb; 0x3eb;
    0x01b; 0x21b; 0x11b; 0x31b; 0x09b; 0x29b; 0x19b; 0x39b; 0x05b; 0x25b; 0x15b; 0x35b; 0x0db; 0x2db; 0x1db; 0x3db;
    0x03b; 0x23b; 0x13b; 0x33b; 0x0bb; 0x2bb; 0x1bb; 0x3bb; 0x07b; 0x27b; 0x17b; 0x37b; 0x0fb; 0x2fb; 0x1fb; 0x3fb;
    0x007; 0x207; 0x107; 0x307; 0x087; 0x287; 0x187; 0x387; 0x047; 0x247; 0x147; 0x347; 0x0c7; 0x2c7; 0x1c7; 0x3c7;
    0x027; 0x227; 0x127; 0x327; 0x0a7; 0x2a7; 0x1a7; 0x3a7; 0x067; 0x267; 0x167; 0x367; 0x0e7; 0x2e7; 0x1e7; 0x3e7;
    0x017; 0x217; 0x117; 0x317; 0x097; 0x297; 0x197; 0x397; 0x057; 0x257; 0x157; 0x357; 0x0d7; 0x2d7; 0x1d7; 0x3d7;
    0x037; 0x237; 0x137; 0x337; 0x0b7; 0x2b7; 0x1b7; 0x3b7; 0x077; 0x277; 0x177; 0x377; 0x0f7; 0x2f7; 0x1f7; 0x3f7;
    0x00f; 0x20f; 0x10f; 0x30f; 0x08f; 0x28f; 0x18f; 0x38f; 0x04f; 0x24f; 0x14f; 0x34f; 0x0cf; 0x2cf; 0x1cf; 0x3cf;
    0x02f; 0x22f; 0x12f; 0x32f; 0x0af; 0x2af; 0x1af; 0x3af; 0x06f; 0x26f; 0x16f; 0x36f; 0x0ef; 0x2ef; 0x1ef; 0x3ef;
    0x01f; 0x21f; 0x11f; 0x31f; 0x09f; 0x29f; 0x19f; 0x39f; 0x05f; 0x25f; 0x15f; 0x35f; 0x0df; 0x2df; 0x1df; 0x3df;
    0x03f; 0x23f; 0x13f; 0x33f; 0x0bf; 0x2bf; 0x1bf; 0x3bf; 0x07f; 0x27f; 0x17f; 0x37f; 0x0ff; 0x2ff; 0x1ff; 0x3ff
  ].

(** ** FIX_MPY: fixed-point multiply, Q(0,15) *)

Definition FIX_MPY (a b : Z) : Z :=
  let c := int32_t (a * b) in              (* c = (int32_t)a * (int32_t)b *)
  let c := int32_t (c + 0x4000) in         (* c = c + 0x4000 *)
  let c := Z.shiftr c 15 in                (* c = c >> 15 *)
  int16_t c.                               (* return (int16_t)c *)

(** The same product kept at full width: no narrowing of the result. *)
Definition wide_mpy (a b : Z) : Z := Z.shiftr (a * b + 0x4000) 15.

(** ** Q(1,14) arithmetic: the helpers under [#ifdef BLAH] *)

Module Q14.

(** [#define Q 14] and [#define K (1 << (Q - 1))]. *)
Definition Q : Z := 14.
Definition K : Z := Z.shiftl 1 (Q - 1).

(** [a + b], clipped. *)
Definition q_add (a b : Z) : Z :=
  let tmp := int32_t (a + b) in
  let tmp :=
    if tmp >? 0x7FFF then 0x7FFF
    else if tmp <? -0x8000 then -0x8000
    else tmp in
  int16_t tmp.

(** [a - b]: the difference is converted to [int16_t] as it is. *)
Definition q_sub (a b : Z) : Z := int16_t (a - b).

(** [a * b], rounded and clipped. *)
Definition q_mul (a b : Z) : Z :=
  let tmp := int32_t (a * b) in
  let tmp := int32_t (tmp + K) in
  let tmp := Z.shiftr tmp Q in
  let tmp :=
    if tmp >? 0x7FFF then 0x7FFF
    else if tmp <? -0x8000 then -0x8000
    else tmp in
  int16_t tmp.

(** [a / b]; the division by zero has no result. *)
Definition q_div (a b : Z) : option Z :=
  let tmp := int32_t (Z.shiftl a Q) in
  let tmp :=
    if ((tmp >=? 0) && (b >=? 0)) || ((tmp <? 0) && (b <? 0))
    then int32_t (tmp + Z.shiftr b 2)
    else int32_t (tmp - Z.shiftr b 2) in
  if b =? 0 then None else Some (int16_t (Z.quot tmp b)).

End Q14.

(** ** Loops *)

(** [for (i = i0; i < bound; i += stride) body], the counter being a
    [uint16_t].  The fuel bounds the number of iterations; [for_loop_fuel]
    below shows that [Z.to_nat bound] is always enough. *)
Fixpoint for_loop {St : Type} (fuel : nat) (i bound stride : Z)
    (body : Z -> St -> St) (s : St) : St :=
  match fuel with
  | O => s
  | S fuel' =>
      if i <? bound
      then for_loop fuel' (uint16_t (i + stride)) bound stride body (body i s)
      else s
  end.

(** ** The transform *)

(** Decimation in time: re-order samples. *)
Definition swap_cells (a : list Z) (i r : Z) : list Z :=
  let t := aget a i in
  aset (aset a i (aget a r)) r t.

Definition reorder_body (i : Z) (s : list Z * list Z) : list Z * list Z :=
  let '(fr, fi) := s in
  let bp := aget bitrev i in
  if bp >? i then (swap_cells fr i bp, swap_cells fi i bp) else (fr, fi).

Definition reorder (fr fi : list Z) : list Z * list Z :=
  for_loop (Z.to_nat FFT_SIZE) 0 FFT_SIZE 1 reorder_body (fr, fi).

(** The same loop keeping a log: each time the loop exchanges two cells,
    the pair of their indices [(i, bitrev[i])] is appended to the log. *)
Definition reorder_logged_body (i : Z)
    (sl : (list Z * list Z) * list (Z * Z)) : (list Z * list Z) * list (Z * Z) :=
  let '((fr, fi), log) := sl in
  let bp := aget bitrev i in
  if bp >? i
  then ((swap_cells fr i bp, swap_cells fi i bp), log ++ [(i, bp)])
  else ((fr, fi), log).

Definition reorder_logged (fr fi : list Z) : (list Z * list Z) * list (Z * Z) :=
  for_loop (Z.to_nat FFT_SIZE) 0 FFT_SIZE 1 reorder_logged_body ((fr, fi), []).

(** Range test of all samples: bails out at the first sample out of range,
    setting [shift] and incrementing [scale]. *)
Fixpoint range_scan (fuel : nat) (i : Z) (fr fi : list Z) (scale : Z) : bool * Z :=
  match fuel with
  | O => (false, scale)
  | S fuel' =>
      if i <? FFT_SIZE then
        if (aget fr i >? 0x3fff) || (aget fr i <? -0x4000)
           || (aget fi i >? 0x3fff) || (aget fi i <? -0x4000)
        then (true, uint16_t (scale + 1))
        else range_scan fuel' (uint16_t (i + 1)) fr fi scale
      else (false, scale)
  end.

Section Engine.

(** The engine is written once over the arithmetic it uses: [narrow] is
    the conversion applied when a value is stored into an [int16_t]
    variable, [mpy] the multiply primitive. *)
Variable narrow : Z -> Z.
Variable mpy : Z -> Z -> Z.

(** One butterfly on the pair (i, i + step). *)
Definition butterfly (shift : bool) (wr wi step : Z) (i : Z)
    (s : list Z * list Z) : list Z * list Z :=
  let '(fr, fi) := s in
  let j := uint16_t (i + step) in
  let tr := narrow (mpy wr (aget fr j) - mpy wi (aget fi j)) in
  let ti := narrow (mpy wr (aget fi j) + mpy wi (aget fr j)) in
  let qr := if shift then narrow (Z.quot (aget fr i) 2) else aget fr i in
  let qi := if shift then narrow (Z.quot (aget fi i) 2) else aget fi i in
  let fr := aset fr i (narrow (qr + tr)) in
  let fi := aset fi i (narrow (qi + ti)) in
  let fr := aset fr j (narrow (qr - tr)) in
  let fi := aset fi j (narrow (qi - ti)) in
  (fr, fi).

(** The twiddle angle index of group [m] in the stage counted by [k]. *)
Definition twiddle_index (m k : Z) : Z := uint16_t (Z.shiftl m (k - 1)).

(** Body of the loop over [m]: wiggle factors, then the butterflies. *)
Definition group_body (inverse shift : bool) (k step : Z) (m : Z)
    (s : list Z * list Z) : list Z * list Z :=
  let j := twiddle_index m k in
  let wr := aget Sine (j + FFT_SIZE / 4) in
  let wi := if inverse then aget Sine j else narrow (- aget Sine j) in
  let wr := if shift then narrow (Z.quot wr 2) else wr in
  let wi := if shift then narrow (Z.quot wi 2) else wi in
  for_loop (Z.to_nat FFT_SIZE) m FFT_SIZE (step * 2)
    (butterfly shift wr wi step) s.

(** The state carried from stage to stage. *)
Record state : Type := State
  { st_fr : list Z; st_fi : list Z; st_step : Z; st_scale : Z }.

(** One pass of the stage loop, for the current value of [k]. *)
Definition stage (inverse : bool) (k : Z) (st : state) : state :=
  let '(shift, scale) :=
    range_scan (Z.to_nat FFT_SIZE) 0 (st_fr st) (st_fi st) (st_scale st) in
  let '(fr, fi) :=
    for_loop (Z.to_nat FFT_SIZE) 0 (st_step st) 1
      (group_body inverse shift k (st_step st)) (st_fr st, st_fi st) in
  State fr fi (uint16_t (Z.shiftl (st_step st) 1)) scale.

(** [for (k = FFT_ORDER; k > 0; k--)]. *)
Fixpoint stage_loop (fuel : nat) (inverse : bool) (k : Z) (st : state) : state :=
  match fuel with
  | O => st
  | S fuel' =>
      if k >? 0
      then stage_loop fuel' inverse (uint16_t (k - 1)) (stage inverse k st)
      else st
  end.

Definition fft (fr fi : list Z) (inverse : bool) : list Z * list Z * Z :=
  let '(fr, fi) := reorder fr fi in
  let st := stage_loop (Z.to_nat FFT_ORDER) inverse FFT_ORDER (State fr fi 1 0) in
  (st_fr st, st_fi st, st_scale st).

End Engine.

(** [fix_fft(fr, fi, inverse)]: the buffers after the call and the value
    returned. *)
Definition fix_fft (fr fi : list Z) (inverse : bool) : list Z * list Z * Z :=
  fft int16_t FIX_MPY fr fi inverse.

(** The same computation with every intermediate kept at full width. *)
Definition fix_fft_wide (fr fi : list Z) (inverse : bool) : list Z * list Z * Z :=
  fft (fun z => z) wide_mpy fr fi inverse.

(** The state in which stage number [n + 1] of [fix_fft] is entered: the
    buffers re-ordered, then [n] passes of the stage loop ([n] at most 10). *)
Definition stage_entry (fr fi : list Z) (inverse : bool) (n : nat) : state :=
  let '(fr, fi) := reorder fr fi in
  stage_loop int16_t FIX_MPY n inverse FFT_ORDER (State fr fi 1 0).

(** The value of the local [shift] in the stage entered in state [st]. *)
Definition stage_shift (st : state) : bool :=
  fst (range_scan (Z.to_nat FFT_SIZE) 0 (st_fr st) (st_fi st) (st_scale st)).

(** ** Reference definitions, following the words of the specification *)

(** Fixed-Point Multiply as the specification words it: the product plus
    the rounding bias 2^14, divided by 2^15 rounding down, narrowed back to
    16 bits. *)
Definition FIX_MPY_spec (a b : Z) : Z := int16_t ((a * b + 16384) / 32768).

(** The safe sub-range of the range scan. *)
Definition safe_sample (x : Z) : Prop := -0x4000 <= x <= 0x3fff.

(** Some sample component lies outside the safe sub-range. *)
Definition some_unsafe (fr fi : list Z) : Prop :=
  exists p, 0 <= p < FFT_SIZE
            /\ (~ safe_sample (aget fr p) \/ ~ safe_sample (aget fi p)).

(** Every sample component lies inside the safe sub-range. *)
Definition all_safe (fr fi : list Z) : Prop :=
  forall p, 0 <= p < FFT_SIZE -> safe_sample (aget fr p) /\ safe_sample (aget fi p).

(** A sample component outside the safe sub-range, as a test. *)
Definition unsafe_sample (x : Z) : bool := (x <? -0x4000) || (0x3fff <? x).

(** The stage entered in state [st] triggers range detection: some sample
    of the buffers is outside the safe sub-range. *)
Definition triggers_detection (st : state) : bool :=
  existsb (fun p => unsafe_sample (aget (st_fr st) p)
                    || unsafe_sample (aget (st_fi st) p))
          (map Z.of_nat (seq 0 (Z.to_nat FFT_SIZE))).

(** The number of stages, among the first [n], that triggered range
    detection in the run of [fix_fft] on the given buffers. *)
Fixpoint detections_upto (fr fi : list Z) (inverse : bool) (n : nat) : nat :=
  match n with
  | O => O
  | S n' =>
      (detections_upto fr fi inverse n'
       + (if triggers_detection (stage_entry fr fi inverse n') then 1 else 0))%nat
  end.

Definition detections (fr fi : list Z) (inverse : bool) : nat :=
  detections_upto fr fi inverse (Z.to_nat FFT_ORDER).

(** ** Signals used in the scenarios *)

(** The all-zero buffer. *)
Definition zeros : list Z := replicate (Z.to_nat FFT_SIZE) 0.

(** The real part of the impulse: [real[0] = 32767], zero elsewhere. *)
Definition impulse : list Z := aset zeros 0 32767.

(** The real part of a spectrum holding the full-scale coefficient 32767
    in the mirrored bins [k] and [N - k], zero elsewhere. *)
Definition mirrored_bins (k : Z) : list Z :=
  aset (aset zeros k 32767) (FFT_SIZE - k) 32767.

(** A signal with three non-zero components, all inside the safe
    sub-range: [fr[0] = fr[128] = fi[128] = 16383]. *)
Definition three_fr : list Z := aset (aset zeros 0 16383) 128 16383.
Definition three_fi : list Z := aset zeros 128 16383.

(** ** Reference computations *)

(** The components of the result of a call. *)
Definition result_fr (r : list Z * list Z * Z) : list Z := fst (fst r).
Definition result_fi (r : list Z * list Z * Z) : list Z := snd (fst r).
Definition result_scale (r : list Z * list Z * Z) : Z := snd r.

(** Forward transform, then inverse transform of the result, with the sum
    of the two returned scale exponents. *)
Definition round_trip (fr fi : list Z) : list Z * list Z * Z :=
  let '(Fr, Fi, s1) := fix_fft fr fi false in
  let '(yr, yi, s2) := fix_fft Fr Fi true in
  (yr, yi, s1 + s2).

(** N times the distance between sample [p] of [x] and sample [p] of [y]
    scaled by 2^s and divided by N. *)
Definition reconstruction_error (x y : list Z) (s p : Z) : Z :=
  Z.abs (aget y p * 2 ^ s - FFT_SIZE * aget x p).

(** The round trip reconstructs every sample within [E]. *)
Definition round_trip_within (E : Z) (fr fi : list Z) : Prop :=
  forall p, 0 <= p < FFT_SIZE ->
    reconstruction_error fr (result_fr (round_trip fr fi))
      (result_scale (round_trip fr fi)) p <= FFT_SIZE * E
    /\ reconstruction_error fi (result_fi (round_trip fr fi))
         (result_scale (round_trip fr fi)) p <= FFT_SIZE * E.

(** 32767 * sin(2*pi*j/N) over a whole cycle, from the three quarters the
    table holds. *)
Definition sine_cycle (j : Z) : Z :=
  if j <? 3 * FFT_SIZE / 4 then aget Sine j else - aget Sine (j - FFT_SIZE / 2).

(** 32767 * cos(2*pi*n/N). *)
Definition cosine_cycle (n : Z) : Z := sine_cycle ((n + FFT_SIZE / 4) mod FFT_SIZE).

(** Sample [n] of the exact inverse transform of [mirrored_bins k]:
    32767 * (w^(k*n) + w^(-k*n)) = 2 * 32767 * cos(2*pi*k*n/N), which is
    real. *)
Definition mirrored_reference (k n : Z) : Z := 2 * cosine_cycle (k * n mod FFT_SIZE).

(** The wiggle factors (wr, wi) of group [m], as the loop over [m]
    determines them. *)
Definition twiddle (narrow : Z -> Z) (inverse shift : bool) (k m : Z) : Z * Z :=
  let j := twiddle_index m k in
  let wr := aget Sine (j + FFT_SIZE / 4) in
  let wi := if inverse then aget Sine j else narrow (- aget Sine j) in
  let wr := if shift then narrow (Z.quot wr 2) else wr in
  let wi := if shift then narrow (Z.quot wi 2) else wi in
  (wr, wi).

(** Every sample component of the two buffers is at most [B] in magnitude. *)
Definition samples_below (B : Z) (fr fi : list Z) : Prop :=
  forall p, 0 <= p < FFT_SIZE -> Z.abs (aget fr p) <= B /\ Z.abs (aget fi p) <= B.

(** The exchange of the cells [i] and [r] in both buffers. *)
Definition apply_swap (s : list Z * list Z) (ir : Z * Z) : list Z * list Z :=
  (swap_cells (fst s) (fst ir) (snd ir), swap_cells (snd s) (fst ir) (snd ir)).

(** The log of the re-ordering loop without the buffers: the decision to
    exchange depends on the counter and the table only. *)
Definition swap_log_body (i : Z) (log : list (Z * Z)) : list (Z * Z) :=
  let bp := aget bitrev i in
  if bp >? i then log ++ [(i, bp)] else log.

Definition reorder_swaps : list (Z * Z) :=
  for_loop (Z.to_nat FFT_SIZE) 0 FFT_SIZE 1 swap_log_body [].

(** The number of logged exchanges in which cell [c] takes part. *)
Definition swaps_touching (c : Z) (log : list (Z * Z)) : nat :=
  length (List.filter (fun ir => (fst ir =? c) || (snd ir =? c)) log).

(** A buffer whose cell [p] holds [p]: all cells differ. *)
Definition ramp : list Z := map Z.of_nat (seq 0 (Z.to_nat FFT_SIZE)).

(** The successive values of the counter at which a loop runs its body. *)
Definition loop_indices (fuel : nat) (i bound stride : Z) : list Z :=
  for_loop fuel i bound stride (fun i acc => acc ++ [i]) [].

(** Two pairs of buffers hold the same sample in cell [c]. *)
Definition agree_at (s s' : list Z * list Z) (c : Z) : Prop :=
  aget (fst s) c = aget (fst s') c /\ aget (snd s) c = aget (snd s') c.

(** The indices of all the butterflies of a stage, in the order in which
    the two loops run them. *)
Definition stage_indices (step : Z) : list Z :=
  flat_map (fun m => loop_indices (Z.to_nat FFT_SIZE) m FFT_SIZE (step * 2))
           (loop_indices (Z.to_nat FFT_SIZE) 0 step 1).

(** The index whose low ten bits are those of [i] in reverse order. *)
Definition reverse_bits10 (i : Z) : Z :=
  fold_right (fun b acc => acc + (if Z.testbit i b then 2 ^ (9 - b) else 0)) 0
    [0; 1; 2; 3; 4; 5; 6; 7; 8; 9].

(** ** An evaluator on finite maps *)

(** The transform once more, with the buffers and the tables held in finite
    maps keyed by the index and with conversions that return a value
    already in range as it is.  It is used to evaluate [fft] on given
    signals: [fft_on_maps], below, shows that it returns what [fft]
    returns. *)

Definition int16_fast (z : Z) : Z :=
  if (-32768 <=? z) && (z <=? 32767) then z else int16_t z.

Definition int32_fast (z : Z) : Z :=
  if (-2147483648 <=? z) && (z <=? 2147483647) then z else int32_t z.

Definition FIX_MPY_fast (a b : Z) : Z :=
  int16_fast (Z.shiftr (int32_fast (int32_fast (a * b) + 0x4000)) 15).

(** Cell [i] of a map, and the map with cell [i] set, for a buffer of [n]
    cells; as [aget] and [aset] do, a negative index stands for 0 and a
    write at or beyond [n] does nothing. *)
Definition mget (a : Zmap Z) (i : Z) : Z := default inhabitant (a !! Z.max 0 i).

Definition mset (n : Z) (a : Zmap Z) (i v : Z) : Zmap Z :=
  if Z.max 0 i <? n then <[Z.max 0 i := v]> a else a.

(** The map holding the cells of a list from index [k] on, and the list of
    the first [n] cells of a map. *)
Fixpoint of_list_from (k : Z) (l : list Z) : Zmap Z :=
  match l with
  | [] => ∅
  | x :: l' => <[k := x]> (of_list_from (k + 1) l')
  end.

Definition of_list (l : list Z) : Zmap Z := of_list_from 0 l.

Definition to_list (n : nat) (a : Zmap Z) : list Z :=
  (fun i => mget a (Z.of_nat i)) <$> seq 0 n.

Definition mswap_cells (a : Zmap Z) (i r : Z) : Zmap Z :=
  let t := mget a i in
  mset FFT_SIZE (mset FFT_SIZE a i (mget a r)) r t.

Definition mreorder_body (table : Zmap Z) (i : Z) (s : Zmap Z * Zmap Z)
    : Zmap Z * Zmap Z :=
  let '(fr, fi) := s in
  let bp := mget table i in
  if bp >? i then (mswap_cells fr i bp, mswap_cells fi i bp) else (fr, fi).

Fixpoint mrange_scan (fuel : nat) (i : Z) (fr fi : Zmap Z) (scale : Z) : bool * Z :=
  match fuel with
  | O => (false, scale)
  | S fuel' =>
      if i <? FFT_SIZE then
        if (mget fr i >? 0x3fff) || (mget fr i <? -0x4000)
           || (mget fi i >? 0x3fff) || (mget fi i <? -0x4000)
        then (true, uint16_t (scale + 1))
        else mrange_scan fuel' (uint16_t (i + 1)) fr fi scale
      else (false, scale)
  end.

Record mstate : Type := MState
  { ms_fr : Zmap Z; ms_fi : Zmap Z; ms_step : Z; ms_scale : Z }.

Section MapEngine.

Variable narrow : Z -> Z.
Variable mpy : Z -> Z -> Z.
Variable sine : Zmap Z.

Definition mbutterfly (shift : bool) (wr wi step : Z) (i : Z)
    (s : Zmap Z * Zmap Z) : Zmap Z * Zmap Z :=
  let '(fr, fi) := s in
  let j := uint16_t (i + step) in
  let tr := narrow (mpy wr (mget fr j) - mpy wi (mget fi j)) in
  let ti := narrow (mpy wr (mget fi j) + mpy wi (mget fr j)) in
  let qr := if shift then narrow (Z.quot (mget fr i) 2) else mget fr i in
  let qi := if shift then narrow (Z.quot (mget fi i) 2) else mget fi i in
  let fr := mset FFT_SIZE fr i (narrow (qr + tr)) in
  let fi := mset FFT_SIZE fi i (narrow (qi + ti)) in
  let fr := mset FFT_SIZE fr j (narrow (qr - tr)) in
  let fi := mset FFT_SIZE fi j (narrow (qi - ti)) in
  (fr, fi).

Definition mgroup_body (inverse shift : bool) (k step : Z) (m : Z)
    (s : Zmap Z * Zmap Z) : Zmap Z * Zmap Z :=
  let j := twiddle_index m k in
  let wr := mget sine (j + FFT_SIZE / 4) in
  let wi := if inverse then mget sine j else narrow (- mget sine j) in
  let wr := if shift then narrow (Z.quot wr 2) else wr in
  let wi := if shift then narrow (Z.quot wi 2) else wi in
  for_loop (Z.to_nat FFT_SIZE) m FFT_SIZE (step * 2)
    (mbutterfly shift wr wi step) s.

Definition mstage (inverse : bool) (k : Z) (st : mstate) : mstate :=
  let '(shift, scale) :=
    mrange_scan (Z.to_nat FFT_SIZE) 0 (ms_fr st) (ms_fi st) (ms_scale st) in
  let '(fr, fi) :=
    for_loop (Z.to_nat FFT_SIZE) 0 (ms_step st) 1
      (mgroup_body inverse shift k (ms_step st)) (ms_fr st, ms_fi st) in
  MState fr fi (uint16_t (Z.shiftl (ms_step st) 1)) scale.

Fixpoint mstage_loop (fuel : nat) (inverse : bool) (k : Z) (st : mstate) : mstate :=
  match fuel with
  | O => st
  | S fuel' =>
      if k >? 0
      then mstage_loop fuel' inverse (uint16_t (k - 1)) (mstage inverse k st)
      else st
  end.

End MapEngine.

(** The state after re-ordering and [n] passes of the stage loop, as lists. *)
Definition mstage_entry (narrow : Z -> Z) (mpy : Z -> Z -> Z)
    (fr fi : list Z) (inverse : bool) (n : nat) : state :=
  let sine := of_list Sine in
  let table := of_list bitrev in
  let '(a, b) :=
    for_loop (Z.to_nat FFT_SIZE) 0 FFT_SIZE 1 (mreorder_body table)
      (of_list fr, of_list fi) in
  let st := mstage_loop narrow mpy sine n inverse FFT_ORDER (MState a b 1 0) in
  State (to_list (Z.to_nat FFT_SIZE) (ms_fr st))
        (to_list (Z.to_nat FFT_SIZE) (ms_fi st)) (ms_step st) (ms_scale st).

Definition mfft (narrow : Z -> Z) (mpy : Z -> Z -> Z)
    (fr fi : list Z) (inverse : bool) : list Z * list Z * Z :=
  let st := mstage_entry narrow mpy fr fi inverse (Z.to_nat FFT_ORDER) in
  (st_fr st, st_fi st, st_scale st).

(** A map holds the cells of a list. *)
Definition holds (l : list Z) (a : Zmap Z) : Prop :=
  forall k : Z, 0 <= k -> a !! k = l !! Z.to_nat k.

(** A map holds a buffer of [FFT_SIZE] cells. *)
Definition holds_buffer (l : list Z) (a : Zmap Z) : Prop :=
  length l = Z.to_nat FFT_SIZE /\ holds l a.

(** The same for the two buffers, and for the state of the stage loop. *)
Definition holds_pair (s : list Z * list Z) (t : Zmap Z * Zmap Z) : Prop :=
  holds_buffer (fst s) (fst t) /\ holds_buffer (snd s) (snd t).

Definition holds_state (st : state) (mt : mstate) : Prop :=
  holds_buffer (st_fr st) (ms_fr mt) /\ holds_buffer (st_fi st) (ms_fi mt)
  /\ st_step st = ms_step mt /\ st_scale st = ms_scale mt.

(** ** Loop invariants *)

(** A buffer of [FFT_SIZE] cells holding [int16_t] values. *)
Definition well_formed (a : list Z) : Prop :=
  length a = Z.to_nat FFT_SIZE /\ int16_buffer a.

(** The contents of one buffer when the re-ordering loop has handled the
    indices below [n]: a cell has been exchanged with its mirror as soon as
    the smaller index of the two is below [n]. *)
Definition reordered_upto (n : Z) (orig cur : list Z) : Prop :=
  length cur = length orig
  /\ forall p, 0 <= p < FFT_SIZE ->
       aget cur p =
         if (p <? n) || (aget bitrev p <? n)
         then aget orig (aget bitrev p) else aget orig p.

(** * Properties *)

(** ** Machine integers *)

Lemma int16_t_id (z : Z) : is_int16 z -> int16_t z = z.
Proof.
  unfold is_int16, int16_t. intros H.
  rewrite Z.mod_small by lia. lia.
Qed.

Lemma int16_t_range (z : Z) : is_int16 (int16_t z).
Proof.
  unfold is_int16, int16_t.
  pose proof (Z.mod_pos_bound (z + 32768) 65536). lia.
Qed.

Lemma uint16_t_id (z : Z) : 0 <= z < 65536 -> uint16_t z = z.
Proof. intros H. unfold uint16_t. now apply Z.mod_small. Qed.

Lemma int32_t_id (z : Z) : -2147483648 <= z <= 2147483647 -> int32_t z = z.
Proof.
  unfold int32_t. intros H.
  rewrite Z.mod_small by lia. lia.
Qed.

(** ** FIX_MPY *)

(** The product of two [int16_t] operands lies within [-2^30 + 2^15, 2^30]. *)
Lemma int16_product_range (a b : Z) :
  is_int16 a -> is_int16 b -> -1073709056 <= a * b <= 1073741824.
Proof. unfold is_int16. intros Ha Hb. nia. Qed.

(** Neither 32-bit step of [FIX_MPY] overflows on [int16_t] operands, and
    the shift is the division by 2^15 rounding down. *)
Lemma FIX_MPY_unfold (a b : Z) :
  is_int16 a -> is_int16 b ->
  FIX_MPY a b = int16_t ((a * b + 16384) / 32768).
Proof.
  intros Ha Hb. pose proof (int16_product_range a b Ha Hb) as Hp.
  unfold FIX_MPY.
  rewrite (int32_t_id (a * b)) by lia.
  rewrite int32_t_id by lia.
  rewrite Z.shiftr_div_pow2 by lia.
  reflexivity.
Qed.

(** C2: for all [int16_t] operands, [FIX_MPY] is the 16-bit narrowing of
    the 32-bit product plus the rounding bias 2^14 shifted right
    arithmetically by 15 bits, that is, of floor((a*b + 16384) / 32768). *)
Theorem FIX_MPY_correct (a b : Z) :
  is_int16 a -> is_int16 b ->
  FIX_MPY a b = int16_t (Z.shiftr (a * b + 2 ^ 14) 15)
  /\ FIX_MPY a b = FIX_MPY_spec a b
  /\ is_int16 (FIX_MPY a b).
Proof.
  intros Ha Hb. rewrite (FIX_MPY_unfold a b Ha Hb).
  repeat split; try apply int16_t_range.
  rewrite Z.shiftr_div_pow2 by lia. reflexivity.
Qed.

Lemma FIX_MPY_correct_witness :
  is_int16 (-3) /\ is_int16 16384 /\
  FIX_MPY (-3) 16384 = FIX_MPY_spec (-3) 16384.
Proof.
  assert (Ha : is_int16 (-3)) by (unfold is_int16; lia).
  assert (Hb : is_int16 16384) by (unfold is_int16; lia).
  split; [exact Ha | split; [exact Hb |]].
  exact (proj1 (proj2 (FIX_MPY_correct (-3) 16384 Ha Hb))).
Defined.

(** C10: the only pair of [int16_t] operands whose rounded product does not
    fit in 16 bits is a = b = -32768, where the intermediate is 32768 and
    the narrowing wraps to -32768; for every other pair the result is
    floor((a*b + 16384) / 32768) exactly. *)
Theorem FIX_MPY_edge_case :
  (-32768 * -32768 + 16384) / 32768 = 32768
  /\ FIX_MPY (-32768) (-32768) = -32768
  /\ forall a b : Z, is_int16 a -> is_int16 b ->
       (a, b) <> (-32768, -32768) ->
       is_int16 ((a * b + 16384) / 32768)
       /\ FIX_MPY a b = (a * b + 16384) / 32768.
Proof.
  split; [reflexivity | split; [reflexivity |]].
  intros a b Ha Hb Hne.
  assert (Hq : is_int16 ((a * b + 16384) / 32768)).
  { assert (Hp : -1073709056 <= a * b <= 1073709056).
    { unfold is_int16 in Ha, Hb.
      assert (a <> -32768 \/ b <> -32768) as [H | H].
      { destruct (Z.eq_dec a (-32768)) as [-> | ]; [right | left; assumption].
        intros ->. now apply Hne. }
      all: nia. }
    unfold is_int16. split.
    - apply Z.div_le_lower_bound; lia.
    - apply Z.lt_succ_r, Z.div_lt_upper_bound; lia. }
  split; [exact Hq |].
  rewrite (FIX_MPY_unfold a b Ha Hb). now apply int16_t_id.
Qed.

Lemma FIX_MPY_edge_case_witness :
  FIX_MPY (-32768) (-32767) = (-32768 * -32767 + 16384) / 32768.
Proof.
  refine (proj2 (proj2 (proj2 FIX_MPY_edge_case) (-32768) (-32767) _ _ _));
    unfold is_int16; try lia; congruence.
Defined.

(** ** The tables *)

Lemma Sine_length : length Sine = 768%nat.
Proof. reflexivity. Qed.

Lemma bitrev_length : length bitrev = 1024%nat.
Proof. reflexivity. Qed.

Lemma Sine_int16 : Forall is_int16 Sine.
Proof.
  assert (H : forallb (fun z => (-32768 <=? z) && (z <=? 32767)) Sine = true)
    by (vm_compute; reflexivity).
  apply List.Forall_forall. intros z Hz.
  rewrite forallb_forall in H. specialize (H z Hz).
  unfold is_int16. lia.
Qed.

(** C7, as stated, fails: the table does not have N*3/4 + 1 = 769 entries. *)
Lemma Sine_not_769_entries :
  Z.of_nat (length Sine) <> FFT_SIZE * 3 / 4 + 1.
Proof. rewrite Sine_length. vm_compute. discriminate. Qed.

(** C7, amended: the table is an ordered sequence of exactly 3*N/4 = 768
    signed 16-bit entries, and for every phase index j' in [0, N/2) the
    cosine lookup at j' + N/4 falls inside it, so no wraparound logic is
    needed; the largest such index, 767, is the last entry. *)
Theorem Sine_table_size :
  Z.of_nat (length Sine) = 3 * FFT_SIZE / 4
  /\ 3 * FFT_SIZE / 4 = 768
  /\ Forall is_int16 Sine
  /\ (FFT_SIZE / 2 - 1) + FFT_SIZE / 4 = Z.of_nat (length Sine) - 1
  /\ forall j : Z, 0 <= j < FFT_SIZE / 2 ->
       0 <= j + FFT_SIZE / 4 < Z.of_nat (length Sine)
       /\ is_Some (Sine !! Z.to_nat (j + FFT_SIZE / 4)).
Proof.
  rewrite Sine_length.
  split; [reflexivity | split; [reflexivity | split; [exact Sine_int16 |]]].
  split; [reflexivity |].
  change (FFT_SIZE / 2) with 512. change (FFT_SIZE / 4) with 256.
  intros j Hj. split; [lia |].
  apply lookup_lt_is_Some. rewrite Sine_length. lia.
Qed.

Lemma Sine_table_size_witness :
  0 <= 511 < FFT_SIZE / 2 /\ is_Some (Sine !! Z.to_nat (511 + FFT_SIZE / 4)).
Proof.
  assert (H : 0 <= 511 < FFT_SIZE / 2) by (change (FFT_SIZE / 2) with 512; lia).
  split; [exact H |].
  exact (proj2 (proj2 (proj2 (proj2 (proj2 Sine_table_size))) 511 H)).
Defined.

(** ** Arrays *)

Lemma aget_aset_eq (a : list Z) (i v : Z) :
  (Z.to_nat i < length a)%nat -> aget (aset a i v) i = v.
Proof. intros H. unfold aget, aset. now apply list_lookup_total_insert_eq. Qed.

Lemma aget_aset_ne (a : list Z) (i j v : Z) :
  0 <= i -> 0 <= j -> i <> j -> aget (aset a i v) j = aget a j.
Proof.
  intros Hi Hj Hne. unfold aget, aset.
  apply list_lookup_total_insert_ne. lia.
Qed.

Lemma length_aset (a : list Z) (i v : Z) : length (aset a i v) = length a.
Proof. apply length_insert. Qed.

(** A test that holds on the list of all indices holds at every index. *)
Lemma forallb_indices (P : Z -> bool) (n : nat) :
  forallb P (map Z.of_nat (seq 0 n)) = true ->
  forall p : Z, 0 <= p < Z.of_nat n -> P p = true.
Proof.
  intros H p Hp. rewrite forallb_forall in H. apply H.
  apply in_map_iff. exists (Z.to_nat p). split; [lia |].
  apply in_seq. lia.
Qed.

Lemma existsb_indices (P : Z -> bool) (n : nat) :
  existsb P (map Z.of_nat (seq 0 n)) = true <->
  exists p : Z, 0 <= p < Z.of_nat n /\ P p = true.
Proof.
  rewrite existsb_exists. split.
  - intros (p & Hin & HP). exists p. split; [| exact HP].
    apply in_map_iff in Hin. destruct Hin as (q & <- & Hq).
    apply in_seq in Hq. lia.
  - intros (p & Hp & HP). exists p. split; [| exact HP].
    apply in_map_iff. exists (Z.to_nat p). split; [lia |].
    apply in_seq. lia.
Qed.

(** ** Loops *)

Section Loops.

Context {St : Type}.
Variable body : Z -> St -> St.

(** Fuel beyond the number of iterations left does not change the result:
    the loop ends because its condition fails. *)
Lemma for_loop_fuel (bound stride : Z) :
  0 < stride -> bound + stride <= 65536 ->
  forall (fuel fuel' : nat) (i : Z) (s : St),
    0 <= i -> bound - i <= Z.of_nat fuel -> bound - i <= Z.of_nat fuel' ->
    for_loop fuel i bound stride body s = for_loop fuel' i bound stride body s.
Proof.
  intros Hs Hb. induction fuel as [| fuel IH]; intros [| fuel'] i s Hi H1 H2;
    simpl; try reflexivity; destruct (i <? bound) eqn:E; try reflexivity;
    try lia.
  rewrite uint16_t_id by lia. apply IH; lia.
Qed.

(** Invariant rule for a loop counting up by one. *)
Lemma for_loop_invariant (Inv : Z -> St -> Prop) (bound : Z) :
  bound < 65536 ->
  (forall i s, 0 <= i < bound -> Inv i s -> Inv (i + 1) (body i s)) ->
  forall (fuel : nat) (i : Z) (s : St),
    0 <= i <= bound -> bound - i <= Z.of_nat fuel -> Inv i s ->
    Inv bound (for_loop fuel i bound 1 body s).
Proof.
  intros Hb Hstep. induction fuel as [| fuel IH]; intros i s Hi Hf HI; simpl.
  - now replace bound with i by lia.
  - destruct (i <? bound) eqn:E.
    + rewrite uint16_t_id by lia. apply IH; [lia | lia |].
      apply Hstep; [lia | exact HI].
    + now replace bound with i by lia.
Qed.

End Loops.

(** ** The range scan *)

Lemma unsafe_sample_iff (x : Z) : unsafe_sample x = true <-> ~ safe_sample x.
Proof. unfold unsafe_sample, safe_sample. lia. Qed.

Lemma triggers_detection_iff (st : state) :
  triggers_detection st = true <-> some_unsafe (st_fr st) (st_fi st).
Proof.
  unfold triggers_detection, some_unsafe. rewrite existsb_indices.
  change (Z.of_nat (Z.to_nat FFT_SIZE)) with FFT_SIZE.
  split; intros (p & Hp & H); exists p; (split; [exact Hp |]).
  - apply orb_true_iff in H. now rewrite <- !unsafe_sample_iff.
  - apply orb_true_iff. now rewrite !unsafe_sample_iff.
Qed.

Lemma triggers_detection_false_iff (st : state) :
  triggers_detection st = false <-> all_safe (st_fr st) (st_fi st).
Proof.
  split.
  - intros H p Hp.
    assert (Hn : ~ some_unsafe (st_fr st) (st_fi st)).
    { rewrite <- triggers_detection_iff. congruence. }
    unfold some_unsafe in Hn. unfold safe_sample in *.
    split; apply Decidable.not_not; try (unfold Decidable.decidable; lia);
      intros Hc; apply Hn; exists p; (split; [exact Hp |]); tauto.
  - intros H. destruct (triggers_detection st) eqn:E; [| reflexivity].
    apply triggers_detection_iff in E. destruct E as (p & Hp & Hu).
    destruct (H p Hp). tauto.
Qed.

(** The scan started at index [i] with enough fuel finds the first unsafe
    sample at or after [i], if there is one. *)
Lemma range_scan_spec (fr fi : list Z) (scale : Z) :
  forall (fuel : nat) (i : Z),
    0 <= i <= FFT_SIZE -> FFT_SIZE - i <= Z.of_nat fuel ->
    range_scan fuel i fr fi scale =
      if existsb (fun p => unsafe_sample (aget fr p) || unsafe_sample (aget fi p))
                 (map (fun q => i + Z.of_nat q) (seq 0 (Z.to_nat (FFT_SIZE - i))))
      then (true, uint16_t (scale + 1)) else (false, scale).
Proof.
  unfold FFT_SIZE.
  induction fuel as [| fuel IH]; intros i Hi Hf.
  - replace i with 1024 by lia. reflexivity.
  - cbn [range_scan]. unfold FFT_SIZE. destruct (i <? 1024) eqn:E.
    + replace (Z.to_nat (1024 - i)) with (S (Z.to_nat (1024 - (i + 1)))) by lia.
      cbn [seq map existsb]. rewrite Z.add_0_r.
      assert (Hc : (aget fr i >? 16383) || (aget fr i <? -16384)
                   || (aget fi i >? 16383) || (aget fi i <? -16384)
                   = unsafe_sample (aget fr i) || unsafe_sample (aget fi i)).
      { unfold unsafe_sample.
        destruct (aget fr i >? 16383) eqn:E1, (aget fr i <? -16384) eqn:E2,
          (aget fi i >? 16383) eqn:E3, (aget fi i <? -16384) eqn:E4,
          (16383 <? aget fr i) eqn:E5, (16383 <? aget fi i) eqn:E6;
          try reflexivity; lia. }
      rewrite Hc.
      destruct (unsafe_sample (aget fr i) || unsafe_sample (aget fi i));
        [reflexivity |].
      cbn [orb]. rewrite uint16_t_id by lia. rewrite IH by lia.
      rewrite <- seq_shift, map_map.
      erewrite map_ext; [reflexivity |]. intros q. cbn beta. lia.
    + replace i with 1024 by lia. reflexivity.
Qed.

Lemma range_scan_triggers (st : state) :
  range_scan (Z.to_nat FFT_SIZE) 0 (st_fr st) (st_fi st) (st_scale st) =
    if triggers_detection st
    then (true, uint16_t (st_scale st + 1)) else (false, st_scale st).
Proof.
  rewrite range_scan_spec by (unfold FFT_SIZE; lia).
  unfold triggers_detection. rewrite Z.sub_0_r.
  erewrite (map_ext (fun q => 0 + Z.of_nat q)); [reflexivity |].
  intros q. apply Z.add_0_l.
Qed.

(** ** The stage loop *)

Section Stages.

Variable narrow : Z -> Z.
Variable mpy : Z -> Z -> Z.

Lemma stage_scale (inverse : bool) (k : Z) (st : state) :
  st_scale (stage narrow mpy inverse k st) =
    snd (range_scan (Z.to_nat FFT_SIZE) 0 (st_fr st) (st_fi st) (st_scale st)).
Proof.
  unfold stage. destruct (range_scan _ _ _ _ _) as [shift scale].
  destruct (for_loop _ _ _ _ _ _) as [fr fi]. reflexivity.
Qed.

Lemma stage_step (inverse : bool) (k : Z) (st : state) :
  st_step (stage narrow mpy inverse k st) = uint16_t (Z.shiftl (st_step st) 1).
Proof.
  unfold stage. destruct (range_scan _ _ _ _ _) as [shift scale].
  destruct (for_loop _ _ _ _ _ _) as [fr fi]. reflexivity.
Qed.

(** [n + 1] passes of the stage loop are [n] passes followed by the stage
    for the value [k - n] of the counter. *)
Lemma stage_loop_snoc (inverse : bool) :
  forall (n : nat) (k : Z) (st : state),
    Z.of_nat n < k < 65536 ->
    stage_loop narrow mpy (S n) inverse k st =
      stage narrow mpy inverse (k - Z.of_nat n)
        (stage_loop narrow mpy n inverse k st).
Proof.
  induction n as [| n IH]; intros k st Hk.
  - cbn [stage_loop]. destruct (k >? 0) eqn:E; [| lia].
    now rewrite Z.sub_0_r.
  - change (stage_loop narrow mpy (S (S n)) inverse k st)
      with (if k >? 0
            then stage_loop narrow mpy (S n) inverse (uint16_t (k - 1))
                   (stage narrow mpy inverse k st)
            else st).
    change (stage_loop narrow mpy (S n) inverse k st)
      with (if k >? 0
            then stage_loop narrow mpy n inverse (uint16_t (k - 1))
                   (stage narrow mpy inverse k st)
            else st).
    destruct (k >? 0) eqn:E; [| lia].
    rewrite uint16_t_id by lia. rewrite IH by lia.
    f_equal. lia.
Qed.

(** The stage loop stops by itself after [FFT_ORDER] passes. *)
Lemma stage_loop_fuel (inverse : bool) :
  forall (fuel fuel' : nat) (k : Z) (st : state),
    0 <= k < 65536 -> k <= Z.of_nat fuel -> k <= Z.of_nat fuel' ->
    stage_loop narrow mpy fuel inverse k st =
      stage_loop narrow mpy fuel' inverse k st.
Proof.
  induction fuel as [| fuel IH]; intros [| fuel'] k st Hk H1 H2;
    cbn [stage_loop]; try reflexivity; destruct (k >? 0) eqn:E;
    try reflexivity; try lia.
  rewrite uint16_t_id by lia. apply IH; lia.
Qed.

(** After [n] stages [step] is 2^n and [scale] is at most [n]. *)
Lemma stage_loop_step_scale (inverse : bool) (fr fi : list Z) :
  forall n : nat, (n <= 10)%nat ->
    let st := stage_loop narrow mpy n inverse FFT_ORDER (State fr fi 1 0) in
    st_step st = 2 ^ Z.of_nat n /\ 0 <= st_scale st <= Z.of_nat n.
Proof.
  induction n as [| n IH]; intros Hn; cbn zeta.
  - cbn. lia.
  - rewrite stage_loop_snoc by (unfold FFT_ORDER; lia).
    destruct IH as [Hstep Hscale]; [lia |].
    rewrite stage_step, stage_scale, Hstep, range_scan_triggers.
    assert (Hp : 0 < 2 ^ Z.of_nat n <= 2 ^ 9).
    { split; [apply Z.pow_pos_nonneg; lia |].
      apply Z.pow_le_mono_r; lia. }
    split.
    + rewrite Z.shiftl_mul_pow2 by lia. rewrite uint16_t_id by lia.
      rewrite Nat2Z.inj_succ, Z.pow_succ_r by lia. lia.
    + destruct (triggers_detection _); cbn [snd].
      * rewrite uint16_t_id by lia. lia.
      * lia.
Qed.

End Stages.

Lemma stage_entry_succ (fr fi : list Z) (inverse : bool) (n : nat) :
  (n < 10)%nat ->
  stage_entry fr fi inverse (S n) =
    stage int16_t FIX_MPY inverse (FFT_ORDER - Z.of_nat n)
      (stage_entry fr fi inverse n).
Proof.
  intros Hn. unfold stage_entry. destruct (reorder fr fi) as [fr' fi'].
  apply stage_loop_snoc. unfold FFT_ORDER. lia.
Qed.

Lemma stage_entry_step_scale (fr fi : list Z) (inverse : bool) (n : nat) :
  (n <= 10)%nat ->
  st_step (stage_entry fr fi inverse n) = 2 ^ Z.of_nat n
  /\ 0 <= st_scale (stage_entry fr fi inverse n) <= Z.of_nat n.
Proof.
  intros Hn. unfold stage_entry. destruct (reorder fr fi) as [fr' fi'].
  now apply stage_loop_step_scale.
Qed.

(** The value returned by [fix_fft] is [scale] after the tenth stage. *)
Lemma fix_fft_scale (fr fi : list Z) (inverse : bool) :
  snd (fix_fft fr fi inverse) = st_scale (stage_entry fr fi inverse 10).
Proof.
  unfold fix_fft, fft, stage_entry. destruct (reorder fr fi) as [fr' fi'].
  reflexivity.
Qed.

(** What one stage does to [scale], by cases on the range scan. *)
Lemma stage_scan_cases (inverse : bool) (k : Z) (st : state) :
  0 <= st_scale st < 65535 ->
  (some_unsafe (st_fr st) (st_fi st)
   /\ stage_shift st = true
   /\ st_scale (stage int16_t FIX_MPY inverse k st) = st_scale st + 1)
  \/ (all_safe (st_fr st) (st_fi st)
      /\ stage_shift st = false
      /\ st_scale (stage int16_t FIX_MPY inverse k st) = st_scale st).
Proof.
  intros Hs. unfold stage_shift. rewrite stage_scale, range_scan_triggers.
  destruct (triggers_detection st) eqn:E; cbn [fst snd].
  - left. apply triggers_detection_iff in E.
    rewrite uint16_t_id by lia. auto.
  - right. apply triggers_detection_false_iff in E. auto.
Qed.

Lemma some_unsafe_not_all_safe (fr fi : list Z) :
  some_unsafe fr fi -> all_safe fr fi -> False.
Proof. intros (p & Hp & Hu) H. destruct (H p Hp). tauto. Qed.

(** C3: on each of the ten stages of [fix_fft], forward or inverse, the
    range scan decides the stage: if some sample component of [fr] or [fi]
    is outside [-0x4000, 0x3FFF] when the stage is entered, [shift] is set
    and [scale] grows by exactly one; otherwise [shift] is clear and [scale]
    is unchanged. *)
Theorem range_scan_every_stage (fr fi : list Z) (inverse : bool) (n : nat) :
  (n < Z.to_nat FFT_ORDER)%nat ->
  let st := stage_entry fr fi inverse n in
  let st' := stage_entry fr fi inverse (S n) in
  st' = stage int16_t FIX_MPY inverse (FFT_ORDER - Z.of_nat n) st
  /\ (some_unsafe (st_fr st) (st_fi st) ->
      stage_shift st = true /\ st_scale st' = st_scale st + 1)
  /\ (all_safe (st_fr st) (st_fi st) ->
      stage_shift st = false /\ st_scale st' = st_scale st)
  /\ (st_scale st' = st_scale st \/ st_scale st' = st_scale st + 1).
Proof.
  change (Z.to_nat FFT_ORDER) with 10%nat. intros Hn st st'.
  assert (Hst' : st' = stage int16_t FIX_MPY inverse (FFT_ORDER - Z.of_nat n) st)
    by (now apply stage_entry_succ).
  split; [exact Hst' |]. rewrite Hst'.
  destruct (stage_entry_step_scale fr fi inverse n) as [_ Hscale]; [lia |].
  fold st in Hscale.
  destruct (stage_scan_cases inverse (FFT_ORDER - Z.of_nat n) st)
    as [(Hu & Hsh & Hsc) | (Ha & Hsh & Hsc)]; [lia | |].
  - split; [auto |]. split; [| now right].
    intros Ha. destruct (some_unsafe_not_all_safe _ _ Hu Ha).
  - split; [| split; [auto | now left]].
    intros Hu. destruct (some_unsafe_not_all_safe _ _ Hu Ha).
Qed.

Lemma range_scan_every_stage_witness :
  st_scale (stage_entry [0; 0] [0; 0] true 1)
    = st_scale (stage_entry [0; 0] [0; 0] true 0)
  \/ st_scale (stage_entry [0; 0] [0; 0] true 1)
     = st_scale (stage_entry [0; 0] [0; 0] true 0) + 1.
Proof.
  assert (H : (0 < Z.to_nat FFT_ORDER)%nat)
    by (change (Z.to_nat FFT_ORDER) with 10%nat; lia).
  exact (proj2 (proj2 (proj2 (range_scan_every_stage [0; 0] [0; 0] true 0 H)))).
Defined.

(** ** Twiddle factor lookups *)

(** C8: in the stage counted by [k] (1 to 10) the loop over [m] runs below
    [step] = 2^(10-k), and for each such [m] the angle index
    [j = m << (k-1)] lies in [0, N/2); hence [Sine[j + N/4]] and [Sine[j]],
    read in both directions, are inside the 3*N/4 entries of the table. *)
Theorem twiddle_index_in_table (fr fi : list Z) (inverse : bool) (k m : Z) :
  1 <= k <= FFT_ORDER ->
  0 <= m < 2 ^ (FFT_ORDER - k) ->
  let n := Z.to_nat (FFT_ORDER - k) in
  stage_entry fr fi inverse (S n) =
    stage int16_t FIX_MPY inverse k (stage_entry fr fi inverse n)
  /\ st_step (stage_entry fr fi inverse n) = 2 ^ (FFT_ORDER - k)
  /\ twiddle_index m k = Z.shiftl m (k - 1)
  /\ 0 <= twiddle_index m k < FFT_SIZE / 2
  /\ (Z.to_nat (twiddle_index m k + FFT_SIZE / 4) < length Sine)%nat
  /\ (Z.to_nat (twiddle_index m k) < length Sine)%nat
  /\ Z.of_nat (length Sine) = 3 * FFT_SIZE / 4.
Proof.
  intros Hk Hm n. unfold FFT_ORDER in *.
  assert (Hn : (n <= 9)%nat) by (unfold n; lia).
  assert (Hj : 0 <= Z.shiftl m (k - 1) < 512).
  { rewrite Z.shiftl_mul_pow2 by lia.
    assert (Hp : 2 ^ (10 - k) * 2 ^ (k - 1) = 2 ^ 9).
    { rewrite <- Z.pow_add_r by lia. f_equal. lia. }
    assert (Hq : 0 < 2 ^ (k - 1)) by (apply Z.pow_pos_nonneg; lia).
    change (2 ^ 9) with 512 in Hp. nia. }
  assert (Ht : twiddle_index m k = Z.shiftl m (k - 1)).
  { unfold twiddle_index. apply uint16_t_id. lia. }
  split.
  { rewrite stage_entry_succ by lia. do 2 f_equal. unfold FFT_ORDER, n. lia. }
  split.
  { destruct (stage_entry_step_scale fr fi inverse n) as [-> _]; [lia |].
    f_equal. unfold n. lia. }
  rewrite Ht, Sine_length. change (FFT_SIZE / 2) with 512.
  change (FFT_SIZE / 4) with 256. change (3 * FFT_SIZE / 4) with 768.
  repeat split; lia.
Qed.

Lemma twiddle_index_in_table_witness :
  1 <= 1 <= FFT_ORDER /\ 0 <= 511 < 2 ^ (FFT_ORDER - 1)
  /\ 0 <= twiddle_index 511 1 < FFT_SIZE / 2.
Proof.
  assert (Hk : 1 <= 1 <= FFT_ORDER) by (unfold FFT_ORDER; lia).
  assert (Hm : 0 <= 511 < 2 ^ (FFT_ORDER - 1)) by (vm_compute; split; congruence).
  split; [exact Hk | split; [exact Hm |]].
  exact (proj1 (proj2 (proj2 (proj2
           (twiddle_index_in_table [] [] false 1 511 Hk Hm))))).
Defined.

(** ** The scale exponent *)

(** [scale] counts the stages that triggered range detection. *)
Lemma scale_counts_detections (fr fi : list Z) (inverse : bool) :
  forall n : nat, (n <= 10)%nat ->
    st_scale (stage_entry fr fi inverse n)
      = Z.of_nat (detections_upto fr fi inverse n).
Proof.
  induction n as [| n IH]; intros Hn.
  - unfold stage_entry. destruct (reorder fr fi). reflexivity.
  - rewrite stage_entry_succ by lia.
    rewrite stage_scale, range_scan_triggers. cbn [detections_upto].
    destruct (stage_entry_step_scale fr fi inverse n) as [_ Hs]; [lia |].
    rewrite Nat2Z.inj_add, <- IH by lia.
    destruct (triggers_detection _); cbn [snd].
    + rewrite uint16_t_id by lia. reflexivity.
    + cbn. lia.
Qed.

Lemma fix_fft_scale_detections (fr fi : list Z) (inverse : bool) :
  snd (fix_fft fr fi inverse) = Z.of_nat (detections fr fi inverse).
Proof.
  rewrite fix_fft_scale. unfold detections.
  change (Z.to_nat FFT_ORDER) with 10%nat.
  now apply scale_counts_detections.
Qed.

(** ** The bit-reversal re-ordering *)

(** The table maps indices to indices and is its own inverse. *)
Lemma bitrev_involution (p : Z) :
  0 <= p < FFT_SIZE ->
  0 <= aget bitrev p < FFT_SIZE /\ aget bitrev (aget bitrev p) = p.
Proof.
  intros Hp.
  assert (H : forallb (fun p => (0 <=? aget bitrev p)
                                && (aget bitrev p <? FFT_SIZE)
                                && (aget bitrev (aget bitrev p) =? p))
                (map Z.of_nat (seq 0 1024)) = true)
    by (vm_compute; reflexivity).
  pose proof (forallb_indices _ _ H p Hp) as Hb. cbn beta in Hb. lia.
Qed.

Lemma aget_swap_cells (a : list Z) (i r p : Z) :
  0 <= i -> 0 <= r -> 0 <= p -> i <> r ->
  (Z.to_nat i < length a)%nat -> (Z.to_nat r < length a)%nat ->
  aget (swap_cells a i r) p =
    if p =? r then aget a i else if p =? i then aget a r else aget a p.
Proof.
  intros Hi Hr Hp Hne Hli Hlr. unfold swap_cells.
  destruct (p =? r) eqn:E1.
  - replace p with r by lia. apply aget_aset_eq. now rewrite length_aset.
  - rewrite aget_aset_ne by lia. destruct (p =? i) eqn:E2.
    + replace p with i by lia. now apply aget_aset_eq.
    + apply aget_aset_ne; lia.
Qed.

Lemma length_swap_cells (a : list Z) (i r : Z) :
  length (swap_cells a i r) = length a.
Proof. unfold swap_cells. now rewrite !length_aset. Qed.

Lemma reordered_upto_step (orig cur : list Z) (n : Z) :
  length orig = Z.to_nat FFT_SIZE -> 0 <= n < FFT_SIZE ->
  reordered_upto n orig cur ->
  reordered_upto (n + 1) orig
    (if aget bitrev n >? n then swap_cells cur n (aget bitrev n) else cur).
Proof.
  intros Hlen Hn [Hl Hcur].
  destruct (bitrev_involution n Hn) as [Hr Hrr].
  unfold FFT_SIZE in *.
  destruct (aget bitrev n >? n) eqn:E; (split; [| intros p Hp]).
  - now rewrite length_swap_cells.
  - destruct (bitrev_involution p Hp) as [Hq Hqq]. unfold FFT_SIZE in *.
    rewrite aget_swap_cells by lia.
    destruct (p =? aget bitrev n) eqn:E1; [| destruct (p =? n) eqn:E2].
    + assert (Hpn : aget bitrev p = n) by (replace p with (aget bitrev n) by lia; exact Hrr).
      rewrite (Hcur n) by lia. rewrite Hpn.
      replace ((n <? n) || (aget bitrev n <? n)) with false by lia.
      replace ((p <? n + 1) || (n <? n + 1)) with true by lia.
      reflexivity.
    + replace p with n in * by lia.
      rewrite (Hcur (aget bitrev n)) by lia. rewrite Hrr.
      replace ((aget bitrev n <? n) || (n <? n)) with false by lia.
      replace ((n <? n + 1) || (aget bitrev n <? n + 1)) with true by lia.
      reflexivity.
    + rewrite (Hcur p) by lia.
      assert (Hne : aget bitrev p <> n).
      { intros Hc. rewrite <- Hc, Hqq in E1. lia. }
      replace ((p <? n + 1) || (aget bitrev p <? n + 1))
        with ((p <? n) || (aget bitrev p <? n)) by lia.
      reflexivity.
  - exact Hl.
  - destruct (bitrev_involution p Hp) as [Hq Hqq]. unfold FFT_SIZE in *.
    rewrite (Hcur p) by lia.
    destruct (Z.eq_dec p n) as [-> | Hpn].
    + destruct (Z.eq_dec (aget bitrev n) n) as [He | He].
      * rewrite He. now destruct ((n <? n) || (n <? n)), ((n <? n + 1) || (n <? n + 1)).
      * replace ((n <? n) || (aget bitrev n <? n)) with true by lia.
        replace ((n <? n + 1) || (aget bitrev n <? n + 1)) with true by lia.
        reflexivity.
    + assert (Hne : aget bitrev p = n -> p < n).
      { intros Hc. rewrite <- Hc, Hqq in E. lia. }
      replace ((p <? n + 1) || (aget bitrev p <? n + 1))
        with ((p <? n) || (aget bitrev p <? n)) by lia.
      reflexivity.
Qed.

(** The re-ordering moves the sample at index [bitrev[p]] to index [p]. *)
Lemma reorder_spec (fr fi : list Z) :
  length fr = Z.to_nat FFT_SIZE -> length fi = Z.to_nat FFT_SIZE ->
  length (fst (reorder fr fi)) = Z.to_nat FFT_SIZE
  /\ length (snd (reorder fr fi)) = Z.to_nat FFT_SIZE
  /\ forall p, 0 <= p < FFT_SIZE ->
       aget (fst (reorder fr fi)) p = aget fr (aget bitrev p)
       /\ aget (snd (reorder fr fi)) p = aget fi (aget bitrev p).
Proof.
  intros Hfr Hfi. unfold reorder.
  pose (Inv := fun (n : Z) (s : list Z * list Z) =>
                 reordered_upto n fr (fst s) /\ reordered_upto n fi (snd s)).
  assert (H : Inv FFT_SIZE
                (for_loop (Z.to_nat FFT_SIZE) 0 FFT_SIZE 1 reorder_body (fr, fi))).
  { apply for_loop_invariant.
    - unfold FFT_SIZE. lia.
    - intros i [a b] Hi [Ha Hb]. unfold reorder_body. cbn [fst snd] in *.
      pose proof (reordered_upto_step fr a i Hfr Hi Ha) as Ha'.
      pose proof (reordered_upto_step fi b i Hfi Hi Hb) as Hb'.
      destruct (aget bitrev i >? i); split; assumption.
    - unfold FFT_SIZE. lia.
    - unfold FFT_SIZE. lia.
    - split; (split; [reflexivity |]); intros p Hp; cbn [fst snd];
        now replace ((p <? 0) || (aget bitrev p <? 0)) with false
          by (destruct (bitrev_involution p Hp); lia). }
  destruct H as [[Hla Ha] [Hlb Hb]].
  split; [congruence | split; [congruence |]].
  intros p Hp. rewrite (Ha p Hp), (Hb p Hp).
  assert (E : (p <? FFT_SIZE) = true) by (apply Z.ltb_lt; lia).
  rewrite E. split; reflexivity.
Qed.

(** Two buffers of [FFT_SIZE] cells that agree at every index are equal. *)
Lemma buffer_eq (a b : list Z) :
  length a = Z.to_nat FFT_SIZE -> length b = Z.to_nat FFT_SIZE ->
  (forall p, 0 <= p < FFT_SIZE -> aget a p = aget b p) -> a = b.
Proof.
  intros Ha Hb H. apply (list_eq_same_length a b (Z.to_nat FFT_SIZE) Hb Ha).
  intros i x y Hi Hx Hy.
  apply list_lookup_total_correct in Hx, Hy.
  specialize (H (Z.of_nat i)). unfold aget in H.
  rewrite Nat2Z.id in H. rewrite <- Hx, <- Hy. apply H. lia.
Qed.

(** The logged loop is the re-ordering loop and the log side by side. *)
Lemma reorder_logged_split (bound : Z) (fuel : nat) :
  forall (i : Z) (s : list Z * list Z) (log : list (Z * Z)),
    for_loop fuel i bound 1 reorder_logged_body (s, log) =
      (for_loop fuel i bound 1 reorder_body s,
       for_loop fuel i bound 1 swap_log_body log).
Proof.
  induction fuel as [| fuel IH]; intros i s log; cbn [for_loop];
    [reflexivity |].
  destruct (i <? bound); [| reflexivity].
  rewrite <- IH. f_equal.
  destruct s as [fr fi]. unfold reorder_logged_body, reorder_body, swap_log_body.
  destruct (aget bitrev i >? i); reflexivity.
Qed.

(** The log only grows at its end. *)
Lemma swap_log_acc (bound : Z) (fuel : nat) :
  forall (i : Z) (log : list (Z * Z)),
    for_loop fuel i bound 1 swap_log_body log =
      log ++ for_loop fuel i bound 1 swap_log_body [].
Proof.
  induction fuel as [| fuel IH]; intros i log; cbn [for_loop].
  - now rewrite app_nil_r.
  - destruct (i <? bound); [| now rewrite app_nil_r].
    rewrite (IH _ (swap_log_body i log)), (IH _ (swap_log_body i [])).
    rewrite app_assoc. f_equal.
    unfold swap_log_body. destruct (aget bitrev i >? i);
      [reflexivity | now rewrite app_nil_r].
Qed.

(** The re-ordering loop makes the logged exchanges, in the logged order,
    and nothing else. *)
Lemma reorder_runs_log (bound : Z) (fuel : nat) :
  forall (i : Z) (s : list Z * list Z),
    for_loop fuel i bound 1 reorder_body s =
      fold_left apply_swap (for_loop fuel i bound 1 swap_log_body []) s.
Proof.
  induction fuel as [| fuel IH]; intros i s; cbn [for_loop]; [reflexivity |].
  destruct (i <? bound); [| reflexivity].
  rewrite swap_log_acc, fold_left_app, IH. f_equal.
  destruct s as [fr fi]. unfold reorder_body, swap_log_body.
  destruct (aget bitrev i >? i); reflexivity.
Qed.

Lemma reorder_logged_eq (fr fi : list Z) :
  reorder_logged fr fi = (reorder fr fi, reorder_swaps).
Proof.
  unfold reorder_logged, reorder, reorder_swaps.
  exact (reorder_logged_split FFT_SIZE (Z.to_nat FFT_SIZE) 0 (fr, fi) []).
Qed.

Lemma reorder_as_swaps (fr fi : list Z) :
  reorder fr fi = fold_left apply_swap reorder_swaps (fr, fi).
Proof.
  unfold reorder, reorder_swaps.
  exact (reorder_runs_log FFT_SIZE (Z.to_nat FFT_SIZE) 0 (fr, fi)).
Qed.

(** Every logged exchange is one of a cell with its mirror further up. *)
Lemma reorder_swaps_mirrors (i r : Z) :
  In (i, r) reorder_swaps ->
  0 <= i < r /\ r < FFT_SIZE /\ r = aget bitrev i.
Proof.
  intros Hin.
  assert (H : forallb (fun ir => (0 <=? fst ir) && (fst ir <? snd ir)
                                 && (snd ir <? FFT_SIZE)
                                 && (snd ir =? aget bitrev (fst ir)))
                reorder_swaps = true)
    by (vm_compute; reflexivity).
  rewrite forallb_forall in H. specialize (H _ Hin). cbn [fst snd] in H. lia.
Qed.

(** A cell with a distinct mirror is in exactly one logged exchange, a cell
    that is its own mirror in none. *)
Lemma reorder_swaps_once (c : Z) :
  0 <= c < FFT_SIZE ->
  swaps_touching c reorder_swaps =
    if aget bitrev c =? c then 0%nat else 1%nat.
Proof.
  intros Hc.
  assert (H : forallb (fun c => Nat.eqb (swaps_touching c reorder_swaps)
                                  (if aget bitrev c =? c then 0%nat else 1%nat))
                (map Z.of_nat (seq 0 1024)) = true)
    by (vm_compute; reflexivity).
  pose proof (forallb_indices _ _ H c Hc) as Hb. cbn beta in Hb.
  now apply Nat.eqb_eq.
Qed.

(** C4: on buffers of 1024 samples the re-ordering step is its own inverse.
    One application leaves in cell [p] the sample of cell [bitrev[p]]; the
    loop run with a log computes the same buffers, they are the result of
    making the logged exchanges in order, every logged exchange is one of a
    cell [i] with [bitrev[i] > i], and every cell with a distinct mirror
    takes part in exactly one logged exchange (a cell that is its own
    mirror in none): each pair is swapped exactly once. *)
Theorem reorder_involutive (fr fi : list Z) :
  length fr = Z.to_nat FFT_SIZE -> length fi = Z.to_nat FFT_SIZE ->
  reorder (fst (reorder fr fi)) (snd (reorder fr fi)) = (fr, fi)
  /\ (forall p : Z, 0 <= p < FFT_SIZE ->
        aget (fst (reorder fr fi)) p = aget fr (aget bitrev p)
        /\ aget (snd (reorder fr fi)) p = aget fi (aget bitrev p))
  /\ fst (reorder_logged fr fi) = reorder fr fi
  /\ reorder fr fi =
       fold_left apply_swap (snd (reorder_logged fr fi)) (fr, fi)
  /\ (forall i r : Z, In (i, r) (snd (reorder_logged fr fi)) ->
        0 <= i < r /\ r < FFT_SIZE /\ r = aget bitrev i)
  /\ (forall c : Z, 0 <= c < FFT_SIZE ->
        swaps_touching c (snd (reorder_logged fr fi)) =
          if aget bitrev c =? c then 0%nat else 1%nat).
Proof.
  intros Hfr Hfi.
  destruct (reorder_spec fr fi Hfr Hfi) as (Hla & Hlb & H1).
  destruct (reorder_spec _ _ Hla Hlb) as (Hla' & Hlb' & H2).
  rewrite (reorder_logged_eq fr fi). cbn [fst snd].
  split; [| split; [exact H1 | split; [reflexivity | split; [| split]]]].
  - rewrite (surjective_pairing (reorder _ _)). f_equal.
    + apply buffer_eq; [exact Hla' | exact Hfr |]. intros p Hp.
      destruct (bitrev_involution p Hp) as [Hr Hrr].
      rewrite (proj1 (H2 p Hp)), (proj1 (H1 _ Hr)). now rewrite Hrr.
    + apply buffer_eq; [exact Hlb' | exact Hfi |]. intros p Hp.
      destruct (bitrev_involution p Hp) as [Hr Hrr].
      rewrite (proj2 (H2 p Hp)), (proj2 (H1 _ Hr)). now rewrite Hrr.
  - exact (reorder_as_swaps fr fi).
  - exact reorder_swaps_mirrors.
  - exact reorder_swaps_once.
Qed.

Lemma reorder_involutive_witness :
  reorder (fst (reorder ramp three_fi)) (snd (reorder ramp three_fi))
    = (ramp, three_fi)
  /\ aget (fst (reorder ramp three_fi)) 1 = aget ramp (aget bitrev 1)
  /\ swaps_touching 1 (snd (reorder_logged ramp three_fi)) = 1%nat.
Proof.
  assert (Hfr : length ramp = Z.to_nat FFT_SIZE) by reflexivity.
  assert (Hfi : length three_fi = Z.to_nat FFT_SIZE) by reflexivity.
  destruct (reorder_involutive ramp three_fi Hfr Hfi)
    as (Hinv & Hperm & _ & _ & _ & Honce).
  split; [exact Hinv | split].
  - exact (proj1 (Hperm 1 ltac:(unfold FFT_SIZE; lia))).
  - exact (Honce 1 ltac:(unfold FFT_SIZE; lia)).
Defined.

(** ** The evaluator on finite maps *)

Lemma int16_fast_eq (z : Z) : int16_fast z = int16_t z.
Proof.
  unfold int16_fast. destruct ((-32768 <=? z) && (z <=? 32767)) eqn:E;
    [| reflexivity].
  symmetry. apply int16_t_id. unfold is_int16. lia.
Qed.

Lemma int32_fast_eq (z : Z) : int32_fast z = int32_t z.
Proof.
  unfold int32_fast.
  destruct ((-2147483648 <=? z) && (z <=? 2147483647)) eqn:E; [| reflexivity].
  symmetry. apply int32_t_id. lia.
Qed.

Lemma FIX_MPY_fast_eq (a b : Z) : FIX_MPY_fast a b = FIX_MPY a b.
Proof.
  unfold FIX_MPY_fast, FIX_MPY. now rewrite int16_fast_eq, !int32_fast_eq.
Qed.

Lemma mget_holds (l : list Z) (a : Zmap Z) (i : Z) :
  holds l a -> mget a i = aget l i.
Proof.
  intros H. unfold mget, aget. rewrite H by lia.
  rewrite list_lookup_total_alt. do 2 f_equal. lia.
Qed.

Lemma mset_holds (l : list Z) (a : Zmap Z) (i v : Z) :
  holds_buffer l a -> holds_buffer (aset l i v) (mset FFT_SIZE a i v).
Proof.
  intros [Hlen H]. split; [now rewrite length_aset |].
  unfold mset, aset. intros k Hk. destruct (Z.max 0 i <? FFT_SIZE) eqn:E.
  - destruct (Z.eq_dec (Z.max 0 i) k) as [<- | Hne].
    + rewrite lookup_insert_eq.
      replace (Z.to_nat (Z.max 0 i)) with (Z.to_nat i) by lia.
      symmetry. apply list_lookup_insert_eq. lia.
    + rewrite lookup_insert_ne by assumption.
      rewrite list_lookup_insert_ne by lia. now apply H.
  - rewrite list_insert_ge by lia. now apply H.
Qed.

Lemma of_list_from_lookup (l : list Z) :
  forall k j : Z,
    of_list_from k l !! j = if k <=? j then l !! Z.to_nat (j - k) else None.
Proof.
  induction l as [| x l IH]; intros k j; cbn [of_list_from].
  - rewrite lookup_empty. now destruct (k <=? j).
  - destruct (Z.eq_dec k j) as [-> | Hne].
    + rewrite lookup_insert_eq, Z.leb_refl, Z.sub_diag. reflexivity.
    + rewrite lookup_insert_ne by assumption. rewrite IH.
      destruct (k <=? j) eqn:E1, (k + 1 <=? j) eqn:E2; try lia;
        try reflexivity.
      replace (Z.to_nat (j - k)) with (S (Z.to_nat (j - (k + 1)))) by lia.
      reflexivity.
Qed.

Lemma of_list_holds (l : list Z) : holds l (of_list l).
Proof.
  intros k Hk. unfold of_list. rewrite of_list_from_lookup.
  replace (0 <=? k) with true by lia. now rewrite Z.sub_0_r.
Qed.

Lemma to_list_holds (l : list Z) (a : Zmap Z) :
  holds l a -> to_list (length l) a = l.
Proof.
  intros H. unfold to_list.
  apply (list_eq_same_length _ _ (length l)); [reflexivity | |].
  - now rewrite length_fmap, length_seq.
  - intros i x y Hi Hx Hy.
    rewrite list_lookup_fmap, lookup_seq_lt in Hx by assumption.
    cbn in Hx. injection Hx as <-.
    rewrite (mget_holds l a _ H). unfold aget. rewrite Nat2Z.id.
    now apply list_lookup_total_correct.
Qed.

(** Two runs of a loop whose bodies keep a relation between their states
    end in related states. *)
Lemma for_loop_related {S T : Type} (Rel : S -> T -> Prop)
    (f : Z -> S -> S) (g : Z -> T -> T) (bound stride : Z) :
  (forall i s t, Rel s t -> Rel (f i s) (g i t)) ->
  forall (fuel : nat) (i : Z) (s : S) (t : T),
    Rel s t ->
    Rel (for_loop fuel i bound stride f s) (for_loop fuel i bound stride g t).
Proof.
  intros Hstep. induction fuel as [| fuel IH]; intros i s t H; cbn [for_loop].
  - exact H.
  - destruct (i <? bound); [| exact H]. apply IH. now apply Hstep.
Qed.

Lemma mswap_cells_holds (l : list Z) (a : Zmap Z) (i r : Z) :
  holds_buffer l a -> holds_buffer (swap_cells l i r) (mswap_cells a i r).
Proof.
  intros H. unfold swap_cells, mswap_cells.
  rewrite !(mget_holds l a _ (proj2 H)). now do 2 apply mset_holds.
Qed.

Lemma mreorder_body_holds (table : Zmap Z) (i : Z) s t :
  holds bitrev table -> holds_pair s t ->
  holds_pair (reorder_body i s) (mreorder_body table i t).
Proof.
  intros Ht [Hr Hi]. destruct s as [fr fi], t as [mr mi]. cbn [fst snd] in *.
  unfold reorder_body, mreorder_body. rewrite (mget_holds _ _ _ Ht).
  destruct (aget bitrev i >? i); split; cbn [fst snd];
    try assumption; now apply mswap_cells_holds.
Qed.

Lemma mrange_scan_holds (fr fi : list Z) (mr mi : Zmap Z) (scale : Z) :
  holds fr mr -> holds fi mi ->
  forall (fuel : nat) (i : Z),
    mrange_scan fuel i mr mi scale = range_scan fuel i fr fi scale.
Proof.
  intros Hr Hi. induction fuel as [| fuel IH]; intros i;
    cbn [mrange_scan range_scan]; [reflexivity |].
  rewrite !(mget_holds _ _ _ Hr), !(mget_holds _ _ _ Hi), IH. reflexivity.
Qed.

Section MapEngineCorrect.

Variables narrow narrow' : Z -> Z.
Variables mpy mpy' : Z -> Z -> Z.
Variable sine : Zmap Z.
Hypothesis narrow_eq : forall z, narrow' z = narrow z.
Hypothesis mpy_eq : forall a b, mpy' a b = mpy a b.
Hypothesis sine_holds : holds Sine sine.

Lemma mbutterfly_holds (shift : bool) (wr wi step i : Z) s t :
  holds_pair s t ->
  holds_pair (butterfly narrow mpy shift wr wi step i s)
             (mbutterfly narrow' mpy' shift wr wi step i t).
Proof.
  intros [Hr Hi]. destruct s as [fr fi], t as [mr mi]. cbn [fst snd] in *.
  unfold butterfly, mbutterfly.
  rewrite !(mget_holds _ _ _ (proj2 Hr)), !(mget_holds _ _ _ (proj2 Hi)).
  rewrite !narrow_eq, !mpy_eq.
  split; cbn [fst snd]; now do 2 apply mset_holds.
Qed.

Lemma mgroup_body_holds (inverse shift : bool) (k step m : Z) s t :
  holds_pair s t ->
  holds_pair (group_body narrow mpy inverse shift k step m s)
             (mgroup_body narrow' mpy' sine inverse shift k step m t).
Proof.
  intros H. unfold group_body, mgroup_body.
  rewrite !(mget_holds _ _ _ sine_holds), !narrow_eq.
  apply for_loop_related; [| exact H].
  intros i s' t' H'. now apply mbutterfly_holds.
Qed.

Lemma mstage_holds (inverse : bool) (k : Z) (st : state) (mt : mstate) :
  holds_state st mt ->
  holds_state (stage narrow mpy inverse k st)
              (mstage narrow' mpy' sine inverse k mt).
Proof.
  intros (Hr & Hi & Hstep & Hscale). unfold stage, mstage.
  rewrite (mrange_scan_holds _ _ _ _ _ (proj2 Hr) (proj2 Hi)).
  rewrite <- Hstep, <- Hscale.
  destruct (range_scan _ _ _ _ _) as [shift scale].
  pose proof (for_loop_related holds_pair
                (group_body narrow mpy inverse shift k (st_step st))
                (mgroup_body narrow' mpy' sine inverse shift k (st_step st))
                (st_step st) 1
                (fun i s t H => mgroup_body_holds inverse shift k _ i s t H)
                (Z.to_nat FFT_SIZE) 0 (st_fr st, st_fi st) (ms_fr mt, ms_fi mt)
                (conj Hr Hi)) as H.
  destruct (for_loop _ _ _ _ (group_body _ _ _ _ _ _) _) as [fr fi].
  destruct (for_loop _ _ _ _ (mgroup_body _ _ _ _ _ _ _) _) as [mr mi].
  destruct H as [Hr' Hi']. cbn [fst snd] in Hr', Hi'.
  unfold holds_state.
  cbn [st_fr st_fi st_step st_scale ms_fr ms_fi ms_step ms_scale].
  split; [exact Hr' | split; [exact Hi' | split; reflexivity]].
Qed.

Lemma mstage_loop_holds (inverse : bool) :
  forall (fuel : nat) (k : Z) (st : state) (mt : mstate),
    holds_state st mt ->
    holds_state (stage_loop narrow mpy fuel inverse k st)
                (mstage_loop narrow' mpy' sine fuel inverse k mt).
Proof.
  induction fuel as [| fuel IH]; intros k st mt H;
    cbn [stage_loop mstage_loop]; [exact H |].
  destruct (k >? 0); [| exact H]. apply IH. now apply mstage_holds.
Qed.

End MapEngineCorrect.

Lemma holds_state_to_list (st : state) (mt : mstate) :
  holds_state st mt ->
  State (to_list (Z.to_nat FFT_SIZE) (ms_fr mt))
        (to_list (Z.to_nat FFT_SIZE) (ms_fi mt)) (ms_step mt) (ms_scale mt)
    = st.
Proof.
  intros ([Hlr Hr] & [Hli Hi] & Hstep & Hscale). destruct st as [fr fi step scale].
  cbn [st_fr st_fi st_step st_scale] in *.
  rewrite <- Hlr at 1. rewrite <- Hli at 1.
  now rewrite (to_list_holds _ _ Hr), (to_list_holds _ _ Hi), Hstep, Hscale.
Qed.

(** The evaluator computes the stage entry states and the result of the
    transform on buffers of [FFT_SIZE] cells. *)
Lemma stage_loop_on_maps (narrow narrow' : Z -> Z) (mpy mpy' : Z -> Z -> Z)
    (fr fi : list Z) (inverse : bool) (n : nat) :
  (forall z, narrow' z = narrow z) -> (forall a b, mpy' a b = mpy a b) ->
  length fr = Z.to_nat FFT_SIZE -> length fi = Z.to_nat FFT_SIZE ->
  stage_loop narrow mpy n inverse FFT_ORDER
    (State (fst (reorder fr fi)) (snd (reorder fr fi)) 1 0)
    = mstage_entry narrow' mpy' fr fi inverse n.
Proof.
  intros Hn Hm Hfr Hfi. unfold mstage_entry. cbv zeta.
  pose proof (for_loop_related holds_pair reorder_body
                (mreorder_body (of_list bitrev)) FFT_SIZE 1
                (fun i s t H => mreorder_body_holds _ i s t (of_list_holds bitrev) H)
                (Z.to_nat FFT_SIZE) 0 (fr, fi) (of_list fr, of_list fi)
                (conj (conj Hfr (of_list_holds fr)) (conj Hfi (of_list_holds fi))))
    as H.
  fold (reorder fr fi) in H.
  destruct (reorder fr fi) as [a b].
  destruct (for_loop _ _ _ _ (mreorder_body _) _) as [ma mb].
  destruct H as [Ha Hb]. cbn [fst snd] in *.
  symmetry. apply holds_state_to_list.
  apply (mstage_loop_holds narrow narrow' mpy mpy' (of_list Sine) Hn Hm
           (of_list_holds Sine)).
  split; [exact Ha | split; [exact Hb | split; reflexivity]].
Qed.

Lemma fft_on_maps (narrow narrow' : Z -> Z) (mpy mpy' : Z -> Z -> Z)
    (fr fi : list Z) (inverse : bool) :
  (forall z, narrow' z = narrow z) -> (forall a b, mpy' a b = mpy a b) ->
  length fr = Z.to_nat FFT_SIZE -> length fi = Z.to_nat FFT_SIZE ->
  fft narrow mpy fr fi inverse = mfft narrow' mpy' fr fi inverse.
Proof.
  intros Hn Hm Hfr Hfi. unfold mfft.
  rewrite <- (stage_loop_on_maps narrow narrow' mpy mpy') by assumption.
  unfold fft. destruct (reorder fr fi) as [a b]. reflexivity.
Qed.

Lemma fix_fft_on_maps (fr fi : list Z) (inverse : bool) :
  length fr = Z.to_nat FFT_SIZE -> length fi = Z.to_nat FFT_SIZE ->
  fix_fft fr fi inverse = mfft int16_fast FIX_MPY_fast fr fi inverse.
Proof.
  apply fft_on_maps; [apply int16_fast_eq | apply FIX_MPY_fast_eq].
Qed.

Lemma fix_fft_wide_on_maps (fr fi : list Z) (inverse : bool) :
  length fr = Z.to_nat FFT_SIZE -> length fi = Z.to_nat FFT_SIZE ->
  fix_fft_wide fr fi inverse = mfft (fun z => z) wide_mpy fr fi inverse.
Proof. apply fft_on_maps; reflexivity. Qed.

Lemma stage_entry_on_maps (fr fi : list Z) (inverse : bool) (n : nat) :
  length fr = Z.to_nat FFT_SIZE -> length fi = Z.to_nat FFT_SIZE ->
  stage_entry fr fi inverse n
    = mstage_entry int16_fast FIX_MPY_fast fr fi inverse n.
Proof.
  intros Hfr Hfi.
  rewrite <- (stage_loop_on_maps int16_t int16_fast FIX_MPY FIX_MPY_fast)
    by (assumption || apply int16_fast_eq || apply FIX_MPY_fast_eq).
  unfold stage_entry. destruct (reorder fr fi) as [a b]. reflexivity.
Qed.

Lemma length_to_list (n : nat) (a : Zmap Z) : length (to_list n a) = n.
Proof. unfold to_list. now rewrite length_fmap, length_seq. Qed.

Lemma mfft_lengths (narrow : Z -> Z) (mpy : Z -> Z -> Z)
    (fr fi : list Z) (inverse : bool) :
  length (result_fr (mfft narrow mpy fr fi inverse)) = Z.to_nat FFT_SIZE
  /\ length (result_fi (mfft narrow mpy fr fi inverse)) = Z.to_nat FFT_SIZE.
Proof.
  unfold mfft, mstage_entry, result_fr, result_fi. cbv zeta.
  destruct (for_loop _ _ _ _ _ _) as [a b].
  cbn [fst snd st_fr st_fi]. now rewrite !length_to_list.
Qed.

(** ** Scenarios *)

(** The all-zero signal is transformed into itself, without any shift. *)
Lemma fix_fft_zeros (inverse : bool) :
  fix_fft zeros zeros inverse = (zeros, zeros, 0).
Proof.
  rewrite fix_fft_on_maps by reflexivity.
  destruct inverse; vm_compute; reflexivity.
Qed.

(** C9: for the all-zero input [fix_fft] returns 0 in both directions; in
    general the value returned is the number of stages that triggered range
    detection, hence it is non-decreasing in that number. *)
Theorem scale_zero_and_monotone :
  (forall inverse : bool, result_scale (fix_fft zeros zeros inverse) = 0)
  /\ (forall (fr fi : list Z) (inverse : bool),
        result_scale (fix_fft fr fi inverse)
          = Z.of_nat (detections fr fi inverse))
  /\ (forall (fr1 fi1 fr2 fi2 : list Z) (inverse1 inverse2 : bool),
        (detections fr1 fi1 inverse1 <= detections fr2 fi2 inverse2)%nat ->
        result_scale (fix_fft fr1 fi1 inverse1)
          <= result_scale (fix_fft fr2 fi2 inverse2)).
Proof.
  split; [| split].
  - intros inverse. now rewrite fix_fft_zeros.
  - intros fr fi inverse. apply fix_fft_scale_detections.
  - intros fr1 fi1 fr2 fi2 inverse1 inverse2 H.
    unfold result_scale. rewrite !fix_fft_scale_detections. lia.
Qed.

Lemma scale_zero_and_monotone_witness :
  result_scale (fix_fft zeros zeros false)
    <= result_scale (fix_fft zeros zeros true).
Proof.
  refine (proj2 (proj2 scale_zero_and_monotone)
            zeros zeros zeros zeros false true _).
  apply Nat2Z.inj_le. rewrite <- !fix_fft_scale_detections.
  rewrite !fix_fft_zeros. cbn [snd]. lia.
Defined.

(** C6, evaluated: the forward transform of the impulse [real[0] = 32767]
    has the same value, 16383 + 0i, in every bin, but the value returned
    is 1: the first stage finds 32767 outside the safe sub-range. *)
Theorem impulse_forward :
  aget impulse 0 = 32767
  /\ triggers_detection (stage_entry impulse zeros false 0) = true
  /\ fix_fft impulse zeros false = (replicate 1024 16383, zeros, 1)
  /\ result_scale (fix_fft impulse zeros false) <> 0.
Proof.
  assert (H : fix_fft impulse zeros false = (replicate 1024 16383, zeros, 1))
    by (rewrite fix_fft_on_maps by reflexivity; vm_compute; reflexivity).
  split; [reflexivity |].
  split; [rewrite stage_entry_on_maps by reflexivity; vm_compute; reflexivity |].
  split; [exact H |]. rewrite H. discriminate.
Qed.

(** C5: the inverse transform of the spectrum with 32767 in the mirrored
    bins 1 and N-1 returns the scale exponent 2; the buffers it leaves are
    those of the computation carried out at full width, so no stored value
    comes from a wrap-around; and every sample, multiplied by 2^2, is within
    18 (real part) and 12 (imaginary part) of the exact inverse transform
    2 * 32767 * cos(2*pi*n/N) read off the sine table. *)
Theorem mirrored_bins_inverse :
  let r := fix_fft (mirrored_bins 1) zeros true in
  aget (mirrored_bins 1) 1 = 32767
  /\ aget (mirrored_bins 1) (FFT_SIZE - 1) = 32767
  /\ 0 < result_scale r
  /\ result_scale r = 2
  /\ r = fix_fft_wide (mirrored_bins 1) zeros true
  /\ forall p : Z, 0 <= p < FFT_SIZE ->
       Z.abs (aget (result_fr r) p * 2 ^ result_scale r
              - mirrored_reference 1 p) <= 18
       /\ Z.abs (aget (result_fi r) p * 2 ^ result_scale r) <= 12.
Proof.
  intros r.
  assert (Hn : fix_fft (mirrored_bins 1) zeros true
               = mfft int16_fast FIX_MPY_fast (mirrored_bins 1) zeros true)
    by (apply fix_fft_on_maps; reflexivity).
  assert (Hw : fix_fft_wide (mirrored_bins 1) zeros true
               = mfft (fun z => z) wide_mpy (mirrored_bins 1) zeros true)
    by (apply fix_fft_wide_on_maps; reflexivity).
  assert (H : (let r := mfft int16_fast FIX_MPY_fast (mirrored_bins 1) zeros true in
               (result_scale r =? 2)
               && bool_decide
                    (r = mfft (fun z => z) wide_mpy (mirrored_bins 1) zeros true)
               && forallb
                    (fun p =>
                       (Z.abs (aget (result_fr r) p * 2 ^ result_scale r
                               - mirrored_reference 1 p) <=? 18)
                       && (Z.abs (aget (result_fi r) p * 2 ^ result_scale r)
                           <=? 12))
                    (map Z.of_nat (seq 0 1024))) = true)
    by (vm_compute; reflexivity).
  cbv zeta in H. rewrite <- Hw, <- Hn in H. fold r in H.
  apply andb_prop in H. destruct H as [H H3].
  apply andb_prop in H. destruct H as [H1 H2].
  apply Z.eqb_eq in H1. apply bool_decide_eq_true in H2.
  split; [reflexivity | split; [reflexivity |]].
  split; [lia | split; [exact H1 | split; [exact H2 |]]].
  intros p Hp. pose proof (forallb_indices _ _ H3 p Hp) as Hb.
  cbn beta in Hb. lia.
Qed.

Lemma mirrored_bins_inverse_witness :
  0 <= 0 < FFT_SIZE
  /\ Z.abs (aget (result_fi (fix_fft (mirrored_bins 1) zeros true)) 0
            * 2 ^ result_scale (fix_fft (mirrored_bins 1) zeros true)) <= 12.
Proof.
  assert (H : 0 <= 0 < FFT_SIZE) by (unfold FFT_SIZE; lia).
  split; [exact H |].
  exact (proj2 (proj2 (proj2 (proj2 (proj2 (proj2 mirrored_bins_inverse)))) 0 H)).
Defined.

(** C1, evaluated: on the signal [fr[0] = fr[128] = fi[128] = 16383] the
    third stage is entered with every sample inside the safe sub-range, so
    it does not shift, and its butterfly on the cells 1 and 5 stores
    16383 + 23168 = 39551 as -25985.  The forward transform returns 1 where
    the full-width computation returns 2, the inverse transform of its
    result returns 8, and the reconstruction of sample 0 is off by 8192.5:
    the round trip is not within any bound up to 8192. *)
Theorem round_trip_three_samples :
  int16_buffer three_fr /\ int16_buffer three_fi
  /\ length three_fr = Z.to_nat FFT_SIZE /\ length three_fi = Z.to_nat FFT_SIZE
  /\ (let st := stage_entry three_fr three_fi false 2 in
      triggers_detection st = false
      /\ aget (st_fr st) 1 = 16383
      /\ aget (st_fr st) 5 = 16383 /\ aget (st_fi st) 5 = 16383
      /\ aget (st_fr (stage_entry three_fr three_fi false 3)) 1
         = int16_t (16383 + 23168)
      /\ int16_t (16383 + 23168) = -25985)
  /\ result_scale (fix_fft_wide three_fr three_fi false) = 2
  /\ (exists Fr Fi yr yi : list Z,
        fix_fft three_fr three_fi false = (Fr, Fi, 1)
        /\ fix_fft Fr Fi true = (yr, yi, 8)
        /\ aget Fr 1 = -12992
        /\ aget three_fr 0 = 16383 /\ aget yr 0 = 16381
        /\ reconstruction_error three_fr yr (1 + 8) 0 = 8389120)
  /\ (forall E : Z, E <= 8192 -> ~ round_trip_within E three_fr three_fi).
Proof.
  assert (Hb : forall a, forallb (fun z => (-32768 <=? z) && (z <=? 32767)) a = true
                         -> int16_buffer a).
  { intros a H. apply List.Forall_forall. intros z Hz.
    rewrite forallb_forall in H. specialize (H z Hz). unfold is_int16. lia. }
  assert (H : (let '(Fr, Fi, s1) :=
                 mfft int16_fast FIX_MPY_fast three_fr three_fi false in
               let '(yr, yi, s2) := mfft int16_fast FIX_MPY_fast Fr Fi true in
               (s1, s2, aget Fr 1, aget yr 0)) = (1, 8, -12992, 16381))
    by (vm_compute; reflexivity).
  split; [apply Hb; vm_compute; reflexivity |].
  split; [apply Hb; vm_compute; reflexivity |].
  split; [reflexivity | split; [reflexivity |]].
  split.
  { cbv zeta.
    rewrite (stage_entry_on_maps three_fr three_fi false 2) by reflexivity.
    rewrite (stage_entry_on_maps three_fr three_fi false 3) by reflexivity.
    vm_compute. repeat split; reflexivity. }
  split; [rewrite fix_fft_wide_on_maps by reflexivity; vm_compute; reflexivity |].
  assert (Hx : aget three_fr 0 = 16383) by reflexivity.
  assert (E1 : fix_fft three_fr three_fi false
               = mfft int16_fast FIX_MPY_fast three_fr three_fi false)
    by (apply fix_fft_on_maps; reflexivity).
  destruct (mfft_lengths int16_fast FIX_MPY_fast three_fr three_fi false)
    as [HlFr HlFi].
  destruct (mfft int16_fast FIX_MPY_fast three_fr three_fi false)
    as [[Fr Fi] s1].
  cbn [result_fr result_fi fst snd] in HlFr, HlFi.
  assert (E2 : fix_fft Fr Fi true = mfft int16_fast FIX_MPY_fast Fr Fi true)
    by (now apply fix_fft_on_maps).
  destruct (mfft int16_fast FIX_MPY_fast Fr Fi true) as [[yr yi] s2].
  injection H as -> -> HF Hy.
  assert (He : reconstruction_error three_fr yr (1 + 8) 0 = 8389120).
  { unfold reconstruction_error. rewrite Hx, Hy. reflexivity. }
  split.
  - exists Fr, Fi, yr, yi.
    split; [exact E1 | split; [exact E2 | split; [exact HF |]]].
    split; [exact Hx | split; [exact Hy | exact He]].
  - intros E HE Hw. unfold round_trip_within in Hw.
    assert (H0 : 0 <= 0 < FFT_SIZE) by (unfold FFT_SIZE; lia).
    destruct (Hw 0 H0) as [Hr _].
    unfold round_trip in Hr. rewrite E1, E2 in Hr.
    cbn [result_fr result_scale fst snd] in Hr.
    rewrite He in Hr. unfold FFT_SIZE in Hr. lia.
Qed.

Lemma round_trip_three_samples_witness :
  10 <= 8192 /\ ~ round_trip_within 10 three_fr three_fi.
Proof.
  assert (H : 10 <= 8192) by lia.
  split; [exact H |].
  exact (proj2 (proj2 (proj2 (proj2 (proj2 (proj2 (proj2
           round_trip_three_samples)))))) 10 H).
Defined.

(** * Further properties of the code *)

(** ** FIX_MPY *)

(** Away from the pair (-32768, -32768) the narrowing of the result is
    exact. *)
Lemma FIX_MPY_exact (a b : Z) :
  is_int16 a -> is_int16 b -> (a, b) <> (-32768, -32768) ->
  FIX_MPY a b = (a * b + 16384) / 32768.
Proof.
  intros Ha Hb Hne. rewrite (FIX_MPY_unfold a b Ha Hb).
  apply int16_t_id.
  assert (Hp : -1073709056 <= a * b <= 1073709056).
  { unfold is_int16 in Ha, Hb.
    assert (a <> -32768 \/ b <> -32768) as [H | H].
    { destruct (Z.eq_dec a (-32768)) as [-> | ]; [right | left; assumption].
      intros ->. now apply Hne. }
    all: nia. }
  unfold is_int16. split.
  - apply Z.div_le_lower_bound; lia.
  - apply Z.lt_succ_r, Z.div_lt_upper_bound; lia.
Qed.

(** The result is the exact product divided by 2^15 and rounded to the
    nearest integer, a tie going up. *)
Lemma FIX_MPY_rounding (a b : Z) :
  is_int16 a -> is_int16 b -> (a, b) <> (-32768, -32768) ->
  -16384 <= a * b - 32768 * FIX_MPY a b <= 16383.
Proof.
  intros Ha Hb Hne.
  rewrite (FIX_MPY_exact a b Ha Hb Hne).
  pose proof (Z.div_mod (a * b + 16384) 32768) as Hd.
  pose proof (Z.mod_pos_bound (a * b + 16384) 32768). lia.
Qed.

(** X1: for [int16_t] operands other than the pair (-32768, -32768),
    [FIX_MPY] returns the exact product a*b / 2^15 rounded to the nearest
    integer, ties rounded up: the error is within half a unit. *)
Theorem FIX_MPY_nearest (a b : Z) :
  is_int16 a -> is_int16 b -> (a, b) <> (-32768, -32768) ->
  -16384 <= a * b - 32768 * FIX_MPY a b <= 16383
  /\ FIX_MPY a b = FIX_MPY b a.
Proof.
  intros Ha Hb Hne. split; [now apply FIX_MPY_rounding |].
  unfold FIX_MPY. now rewrite Z.mul_comm.
Qed.

Lemma FIX_MPY_nearest_witness :
  -16384 <= 3 * 16384 - 32768 * FIX_MPY 3 16384 <= 16383.
Proof.
  refine (proj1 (FIX_MPY_nearest 3 16384 _ _ _));
    unfold is_int16; try lia; congruence.
Defined.

(** X2: the product never exceeds either operand in magnitude, for all
    [int16_t] operands. *)
Theorem FIX_MPY_no_growth (a b : Z) :
  is_int16 a -> is_int16 b ->
  Z.abs (FIX_MPY a b) <= Z.abs a /\ Z.abs (FIX_MPY a b) <= Z.abs b.
Proof.
  intros Ha Hb.
  destruct (Z.eq_dec a (-32768)) as [Ea | Ea];
    [destruct (Z.eq_dec b (-32768)) as [Eb | Eb] |].
  - subst. split; vm_compute; discriminate.
  - assert (Hne : (a, b) <> (-32768, -32768)) by congruence.
    pose proof (FIX_MPY_rounding a b Ha Hb Hne). unfold is_int16 in *. nia.
  - assert (Hne : (a, b) <> (-32768, -32768)) by congruence.
    pose proof (FIX_MPY_rounding a b Ha Hb Hne). unfold is_int16 in *. nia.
Qed.

Lemma FIX_MPY_no_growth_witness :
  Z.abs (FIX_MPY (-32768) (-32768)) <= Z.abs (-32768).
Proof.
  refine (proj1 (FIX_MPY_no_growth (-32768) (-32768) _ _));
    unfold is_int16; lia.
Defined.

(** X3: negating an operand negates the product, except on a tie, where
    rounding up makes the two differ by one. *)
Theorem FIX_MPY_negate (a b : Z) :
  is_int16 a -> is_int16 b -> a <> -32768 ->
  (a * b mod 32768 <> 16384 -> FIX_MPY (- a) b = - FIX_MPY a b)
  /\ (a * b mod 32768 = 16384 -> FIX_MPY (- a) b = - FIX_MPY a b + 1).
Proof.
  intros Ha Hb Hne.
  assert (Hna : is_int16 (- a)) by (unfold is_int16 in *; lia).
  assert (H1 : (a, b) <> (-32768, -32768)) by congruence.
  assert (H2 : (- a, b) <> (-32768, -32768)).
  { intros H. injection H as H3 H4. unfold is_int16 in Ha. lia. }
  pose proof (FIX_MPY_rounding a b Ha Hb H1) as R1.
  pose proof (FIX_MPY_rounding (- a) b Hna Hb H2) as R2.
  pose proof (Z.div_mod (a * b) 32768) as Hd.
  pose proof (Z.mod_pos_bound (a * b) 32768) as Hm.
  replace (- a * b) with (- (a * b)) in R2 by ring.
  split; intros Ht; nia.
Qed.

Lemma FIX_MPY_negate_witness :
  FIX_MPY (- 1) 16384 = - FIX_MPY 1 16384 + 1.
Proof.
  refine (proj2 (FIX_MPY_negate 1 16384 _ _ _) _);
    unfold is_int16; try lia; reflexivity.
Defined.

(** ** The tables *)

Lemma below_ten (b : Z) :
  0 <= b < 10 -> In b [0; 1; 2; 3; 4; 5; 6; 7; 8; 9].
Proof.
  intros H.
  assert (b = 0 \/ b = 1 \/ b = 2 \/ b = 3 \/ b = 4 \/ b = 5 \/ b = 6
          \/ b = 7 \/ b = 8 \/ b = 9) as Hb by lia.
  cbn [In]. intuition.
Qed.

(** X4: entry [i] of [bitrev] is the index [i] with its low ten bits in
    reverse order. *)
Theorem bitrev_reverses_bits (i : Z) :
  0 <= i < FFT_SIZE ->
  0 <= aget bitrev i < FFT_SIZE
  /\ aget bitrev i = reverse_bits10 i
  /\ forall b : Z, 0 <= b < 10 ->
       Z.testbit (aget bitrev i) b = Z.testbit i (9 - b).
Proof.
  intros Hi.
  assert (H : forallb
                (fun p =>
                   (0 <=? aget bitrev p) && (aget bitrev p <? FFT_SIZE)
                   && (aget bitrev p =? reverse_bits10 p)
                   && forallb
                        (fun b => Bool.eqb (Z.testbit (aget bitrev p) b)
                                           (Z.testbit p (9 - b)))
                        [0; 1; 2; 3; 4; 5; 6; 7; 8; 9])
                (map Z.of_nat (seq 0 1024)) = true)
    by (vm_compute; reflexivity).
  pose proof (forallb_indices _ _ H i Hi) as Hb. cbn beta in Hb.
  apply andb_prop in Hb. destruct Hb as [Hb H3].
  apply andb_prop in Hb. destruct Hb as [Hb H2].
  split; [lia | split; [lia |]].
  intros b Hlt. rewrite forallb_forall in H3.
  apply Bool.eqb_prop, H3, below_ten, Hlt.
Qed.

Lemma bitrev_reverses_bits_witness :
  0 <= 1 < FFT_SIZE /\ aget bitrev 1 = reverse_bits10 1.
Proof.
  assert (H : 0 <= 1 < FFT_SIZE) by (unfold FFT_SIZE; lia).
  split; [exact H |].
  exact (proj1 (proj2 (bitrev_reverses_bits 1 H))).
Defined.

(** X5: the re-ordering step keeps the length of both buffers and leaves
    in cell [p] the sample that was in cell [bitrev[p]]. *)
Theorem reorder_by_bitrev (fr fi : list Z) (p : Z) :
  length fr = Z.to_nat FFT_SIZE -> length fi = Z.to_nat FFT_SIZE ->
  0 <= p < FFT_SIZE ->
  length (fst (reorder fr fi)) = Z.to_nat FFT_SIZE
  /\ length (snd (reorder fr fi)) = Z.to_nat FFT_SIZE
  /\ aget (fst (reorder fr fi)) p = aget fr (aget bitrev p)
  /\ aget (snd (reorder fr fi)) p = aget fi (aget bitrev p).
Proof.
  intros Hfr Hfi Hp.
  destruct (reorder_spec fr fi Hfr Hfi) as (Ha & Hb & H).
  destruct (H p Hp) as [H1 H2]. auto.
Qed.

Lemma reorder_by_bitrev_witness :
  aget (fst (reorder impulse zeros)) 512 = aget impulse (aget bitrev 512).
Proof.
  refine (proj1 (proj2 (proj2 (reorder_by_bitrev impulse zeros 512 _ _ _))));
    [reflexivity | reflexivity | unfold FFT_SIZE; lia].
Defined.

(** X6: the sine table has the symmetries of the sine: it mirrors about
    the quarter period and changes sign after the half period; it rises
    strictly over the first quarter, from 0 to 32767; and no entry is below
    -32766, so that negating an entry never wraps. *)
Theorem Sine_symmetric :
  aget Sine 0 = 0 /\ aget Sine (FFT_SIZE / 4) = 32767
  /\ (forall j : Z, 0 <= j <= FFT_SIZE / 4 ->
        aget Sine (FFT_SIZE / 2 - j) = aget Sine j)
  /\ (forall j : Z, 0 <= j < FFT_SIZE / 4 ->
        aget Sine (FFT_SIZE / 2 + j) = - aget Sine j
        /\ aget Sine j < aget Sine (j + 1))
  /\ (forall j : Z, 0 <= j < 3 * FFT_SIZE / 4 ->
        -32766 <= aget Sine j <= 32767
        /\ int16_t (- aget Sine j) = - aget Sine j).
Proof.
  assert (H1 : forallb (fun j => aget Sine (FFT_SIZE / 2 - j) =? aget Sine j)
                 (map Z.of_nat (seq 0 257)) = true) by (vm_compute; reflexivity).
  assert (H2 : forallb (fun j => (aget Sine (FFT_SIZE / 2 + j) =? - aget Sine j)
                                 && (aget Sine j <? aget Sine (j + 1)))
                 (map Z.of_nat (seq 0 256)) = true) by (vm_compute; reflexivity).
  assert (H3 : forallb (fun j => (-32766 <=? aget Sine j)
                                 && (aget Sine j <=? 32767))
                 (map Z.of_nat (seq 0 768)) = true) by (vm_compute; reflexivity).
  change (FFT_SIZE / 4) with 256. change (3 * FFT_SIZE / 4) with 768.
  split; [reflexivity | split; [reflexivity |]].
  split; [| split].
  - intros j Hj. pose proof (forallb_indices _ _ H1 j) as Hb.
    cbn beta in Hb. lia.
  - intros j Hj. pose proof (forallb_indices _ _ H2 j) as Hb.
    cbn beta in Hb. lia.
  - intros j Hj. pose proof (forallb_indices _ _ H3 j) as Hb.
    cbn beta in Hb. split; [lia |].
    apply int16_t_id. unfold is_int16. lia.
Qed.

Lemma Sine_symmetric_witness :
  aget Sine (FFT_SIZE / 2 + 255) = - aget Sine 255.
Proof.
  refine (proj1 (proj1 (proj2 (proj2 (proj2 Sine_symmetric))) 255 _)).
  change (FFT_SIZE / 4) with 256. lia.
Defined.

(** The twiddle factors, as a test on the table. *)
Lemma twiddle_table_check :
  forallb (fun j => let c := aget Sine (j + FFT_SIZE / 4) in
                    let s := aget Sine j in
                    (32767 * 32767 - 82968 <=? c * c + s * s)
                    && (c * c + s * s <=? 32767 * 32767)
                    && (Z.abs c + Z.abs s <=? 46338))
          (map Z.of_nat (seq 0 512)) = true.
Proof. vm_compute. reflexivity. Qed.

Lemma twiddle_sum_bound (j : Z) :
  0 <= j < FFT_SIZE / 2 ->
  Z.abs (aget Sine (j + FFT_SIZE / 4)) + Z.abs (aget Sine j) <= 46338.
Proof.
  intros Hj. pose proof (forallb_indices _ _ twiddle_table_check j Hj) as Hb.
  cbn beta zeta in Hb. lia.
Qed.

(** X7: every twiddle factor (cos, sin) = (Sine[j + N/4], Sine[j]) the
    engine reads lies on the circle of radius 32767 or just inside it:
    the squared magnitude is at most 32767^2 and at least 32767^2 - 82968;
    the two components never add up to more than 46338 in magnitude. *)
Theorem twiddle_unit_circle (j : Z) :
  0 <= j < FFT_SIZE / 2 ->
  let c := aget Sine (j + FFT_SIZE / 4) in
  let s := aget Sine j in
  32767 * 32767 - 82968 <= c * c + s * s <= 32767 * 32767
  /\ Z.abs c + Z.abs s <= 46338.
Proof.
  intros Hj. pose proof (forallb_indices _ _ twiddle_table_check j Hj) as Hb.
  cbn beta zeta in Hb. cbv zeta. lia.
Qed.

Lemma twiddle_unit_circle_witness :
  Z.abs (aget Sine (128 + FFT_SIZE / 4)) + Z.abs (aget Sine 128) <= 46338.
Proof.
  refine (proj2 (twiddle_unit_circle 128 _)).
  change (FFT_SIZE / 2) with 512. lia.
Defined.

(** ** What [fix_fft] keeps *)

Lemma for_loop_preserves {St : Type} (P : St -> Prop) (body : Z -> St -> St) :
  (forall i s, P s -> P (body i s)) ->
  forall (fuel : nat) (i bound stride : Z) (s : St),
    P s -> P (for_loop fuel i bound stride body s).
Proof.
  intros Hstep. induction fuel as [| fuel IH]; intros i bound stride s H;
    cbn [for_loop]; [exact H |].
  destruct (i <? bound); [| exact H]. apply IH, Hstep, H.
Qed.

Lemma aget_int16 (a : list Z) (i : Z) : int16_buffer a -> is_int16 (aget a i).
Proof.
  intros H. unfold aget.
  destruct (lookup_lt_is_Some a (Z.to_nat i)) as [_ Hlt].
  destruct (le_lt_dec (length a) (Z.to_nat i)) as [Hge | Hl].
  - rewrite list_lookup_total_alt, (lookup_ge_None_2 a _ Hge).
    cbn. unfold is_int16. lia.
  - now apply Forall_lookup_total_1.
Qed.

Lemma aset_well_formed (a : list Z) (i v : Z) :
  well_formed a -> is_int16 v -> well_formed (aset a i v).
Proof.
  intros [Hl Ha] Hv. split; [now rewrite length_aset |].
  now apply Forall_insert.
Qed.

Lemma swap_cells_well_formed (a : list Z) (i r : Z) :
  well_formed a -> well_formed (swap_cells a i r).
Proof.
  intros H. unfold swap_cells.
  apply aset_well_formed; [apply aset_well_formed |];
    try assumption; apply aget_int16, H.
Qed.

Lemma reorder_well_formed (fr fi : list Z) :
  well_formed fr -> well_formed fi ->
  well_formed (fst (reorder fr fi)) /\ well_formed (snd (reorder fr fi)).
Proof.
  intros Hr Hi. unfold reorder.
  apply (for_loop_preserves
           (fun s => well_formed (fst s) /\ well_formed (snd s))); [| now split].
  intros i [a b] [Ha Hb]. cbn [fst snd] in *. unfold reorder_body.
  destruct (aget bitrev i >? i); cbn [fst snd]; split;
    try assumption; now apply swap_cells_well_formed.
Qed.

Section Shape.

Variable mpy : Z -> Z -> Z.

Lemma butterfly_well_formed (shift : bool) (wr wi step i : Z) s :
  well_formed (fst s) /\ well_formed (snd s) ->
  well_formed (fst (butterfly int16_t mpy shift wr wi step i s))
  /\ well_formed (snd (butterfly int16_t mpy shift wr wi step i s)).
Proof.
  intros [Hr Hi]. destruct s as [fr fi]. cbn [fst snd] in *.
  unfold butterfly. cbn [fst snd].
  split; repeat apply aset_well_formed; try assumption; apply int16_t_range.
Qed.

Lemma stage_well_formed (inverse : bool) (k : Z) (st : state) :
  well_formed (st_fr st) -> well_formed (st_fi st) ->
  well_formed (st_fr (stage int16_t mpy inverse k st))
  /\ well_formed (st_fi (stage int16_t mpy inverse k st)).
Proof.
  intros Hr Hi. unfold stage.
  destruct (range_scan _ _ _ _ _) as [shift scale].
  pose proof (for_loop_preserves
                (fun s => well_formed (fst s) /\ well_formed (snd s))
                (group_body int16_t mpy inverse shift k (st_step st))) as H.
  specialize (H (fun m s Hs =>
                   for_loop_preserves _ _
                     (fun i s' Hs' => butterfly_well_formed shift _ _ _ i s' Hs')
                     _ _ _ _ s Hs)).
  specialize (H (Z.to_nat FFT_SIZE) 0 (st_step st) 1 (st_fr st, st_fi st)
                (conj Hr Hi)).
  destruct (for_loop _ _ _ _ _ _) as [fr fi]. exact H.
Qed.

Lemma stage_loop_well_formed (inverse : bool) :
  forall (fuel : nat) (k : Z) (st : state),
    well_formed (st_fr st) -> well_formed (st_fi st) ->
    well_formed (st_fr (stage_loop int16_t mpy fuel inverse k st))
    /\ well_formed (st_fi (stage_loop int16_t mpy fuel inverse k st)).
Proof.
  induction fuel as [| fuel IH]; intros k st Hr Hi; cbn [stage_loop];
    [now split |].
  destruct (k >? 0); [| now split].
  destruct (stage_well_formed inverse k st Hr Hi) as [Hr' Hi'].
  now apply IH.
Qed.

End Shape.

(** X8: called on two buffers of 1024 [int16_t] samples, [fix_fft] leaves
    two buffers of 1024 [int16_t] samples and returns a scale exponent
    between 0 and [FFT_ORDER] = 10, in either direction. *)
Theorem fix_fft_well_formed (fr fi : list Z) (inverse : bool) :
  well_formed fr -> well_formed fi ->
  well_formed (result_fr (fix_fft fr fi inverse))
  /\ well_formed (result_fi (fix_fft fr fi inverse))
  /\ 0 <= result_scale (fix_fft fr fi inverse) <= FFT_ORDER.
Proof.
  intros Hr Hi.
  destruct (stage_entry_step_scale fr fi inverse 10) as [_ Hs]; [lia |].
  rewrite <- fix_fft_scale in Hs.
  split; [| split; [| exact Hs]].
  - unfold fix_fft, fft, result_fr.
    destruct (reorder_well_formed fr fi Hr Hi) as [Ha Hb].
    destruct (reorder fr fi) as [a b]. cbn [fst snd] in *.
    now apply stage_loop_well_formed.
  - unfold fix_fft, fft, result_fi.
    destruct (reorder_well_formed fr fi Hr Hi) as [Ha Hb].
    destruct (reorder fr fi) as [a b]. cbn [fst snd] in *.
    now apply stage_loop_well_formed.
Qed.

Lemma well_formed_check (a : list Z) :
  (length a =? 1024)%nat
  && forallb (fun z => (-32768 <=? z) && (z <=? 32767)) a = true ->
  well_formed a.
Proof.
  intros H. apply andb_prop in H. destruct H as [Hl Hf].
  split; [now apply Nat.eqb_eq in Hl |].
  apply List.Forall_forall. intros z Hz.
  rewrite forallb_forall in Hf. specialize (Hf z Hz). unfold is_int16. lia.
Qed.

Lemma fix_fft_well_formed_witness :
  well_formed three_fr /\ well_formed three_fi
  /\ 0 <= result_scale (fix_fft three_fr three_fi false) <= FFT_ORDER.
Proof.
  assert (Hr : well_formed three_fr) by (apply well_formed_check; reflexivity).
  assert (Hi : well_formed three_fi) by (apply well_formed_check; reflexivity).
  split; [exact Hr | split; [exact Hi |]].
  exact (proj2 (proj2 (fix_fft_well_formed three_fr three_fi false Hr Hi))).
Defined.

(** ** The butterfly indices *)

Lemma loop_indices_acc :
  forall (fuel : nat) (i bound stride : Z) (acc : list Z),
    for_loop fuel i bound stride (fun i acc => acc ++ [i]) acc
      = acc ++ loop_indices fuel i bound stride.
Proof.
  unfold loop_indices.
  induction fuel as [| fuel IH]; intros i bound stride acc; cbn [for_loop].
  - now rewrite app_nil_r.
  - destruct (i <? bound); [| now rewrite app_nil_r].
    rewrite IH, (IH _ _ _ ([] ++ [i])). cbn [app]. now rewrite <- app_assoc.
Qed.

Lemma loop_indices_step (fuel : nat) (i bound stride : Z) :
  loop_indices (S fuel) i bound stride =
    if i <? bound
    then i :: loop_indices fuel (uint16_t (i + stride)) bound stride
    else [].
Proof.
  unfold loop_indices at 1. cbn [for_loop].
  destruct (i <? bound); [| reflexivity]. now rewrite loop_indices_acc.
Qed.

(** A loop is the fold of its body over the values of its counter. *)
Lemma for_loop_fold {St : Type} (body : Z -> St -> St) :
  forall (fuel : nat) (i bound stride : Z) (s : St),
    for_loop fuel i bound stride body s
      = fold_left (fun s i => body i s) (loop_indices fuel i bound stride) s.
Proof.
  induction fuel as [| fuel IH]; intros i bound stride s; [reflexivity |].
  rewrite loop_indices_step. cbn [for_loop].
  destruct (i <? bound); [| reflexivity]. cbn [fold_left]. apply IH.
Qed.

Section Indices.

Variables bound stride : Z.
Hypothesis stride_pos : 0 < stride.
Hypothesis no_wrap : bound + stride <= 65536.

(** The counter takes the values i, i + stride, ... below the bound. *)
Lemma loop_indices_elem :
  forall (fuel : nat) (i x : Z),
    0 <= i -> In x (loop_indices fuel i bound stride) ->
    exists q : Z, 0 <= q /\ x = i + q * stride /\ x < bound.
Proof.
  induction fuel as [| fuel IH]; intros i x Hi Hin; [destruct Hin |].
  rewrite loop_indices_step in Hin. destruct (i <? bound) eqn:E;
    [| destruct Hin].
  destruct Hin as [<- | Hin].
  - exists 0. lia.
  - rewrite uint16_t_id in Hin by lia.
    assert (H0 : 0 <= i + stride) by lia.
    destruct (IH _ _ H0 Hin) as (q & Hq & -> & Hlt).
    exists (q + 1). lia.
Qed.

(** With enough fuel it takes every one of them. *)
Lemma loop_indices_complete :
  forall (fuel : nat) (i q : Z),
    0 <= i -> bound - i <= Z.of_nat fuel -> 0 <= q ->
    i + q * stride < bound ->
    In (i + q * stride) (loop_indices fuel i bound stride).
Proof.
  induction fuel as [| fuel IH]; intros i q Hi Hf Hq Hlt; [nia |].
  rewrite loop_indices_step.
  replace (i <? bound) with true by nia.
  destruct (Z.eq_dec q 0) as [-> | Hne].
  - left. lia.
  - right. rewrite uint16_t_id by nia.
    replace (i + q * stride) with (i + stride + (q - 1) * stride) by ring.
    apply IH; nia.
Qed.

(** It takes no value twice. *)
Lemma loop_indices_NoDup :
  forall (fuel : nat) (i : Z),
    0 <= i -> List.NoDup (loop_indices fuel i bound stride).
Proof.
  induction fuel as [| fuel IH]; intros i Hi; [constructor |].
  rewrite loop_indices_step. destruct (i <? bound) eqn:E; [| constructor].
  rewrite uint16_t_id by lia. constructor; [| apply IH; lia].
  intros Hin. assert (H0 : 0 <= i + stride) by lia.
  destruct (loop_indices_elem _ _ _ H0 Hin) as (q & Hq & Hx & _).
  nia.
Qed.

End Indices.

(** The stride of a stage divides the size of the buffers. *)
Lemma stage_stride (n : nat) :
  (n < 10)%nat ->
  0 < 2 ^ Z.of_nat n <= 512
  /\ exists c : Z, 0 < c /\ c * (2 ^ Z.of_nat n * 2) = FFT_SIZE.
Proof.
  intros Hn. split.
  - split; [apply Z.pow_pos_nonneg; lia |].
    change 512 with (2 ^ 9). apply Z.pow_le_mono_r; lia.
  - exists (2 ^ (9 - Z.of_nat n)). split; [apply Z.pow_pos_nonneg; lia |].
    rewrite (Z.mul_comm _ 2), Z.mul_assoc, (Z.mul_comm _ 2).
    rewrite <- Z.pow_succ_r, <- Z.pow_add_r by lia.
    replace (Z.succ (9 - Z.of_nat n) + Z.of_nat n) with 10 by lia.
    reflexivity.
Qed.

(** X9: in the stage with [step] = 2^n (n < 10) the butterflies of group
    [m] < [step] run at distinct indices [i] congruent to [m] modulo
    [2 * step]; for each of them the partner index [j = i + step] is
    computed without wrap-around and both cells are inside the buffers of
    [FFT_SIZE] samples. *)
Theorem butterfly_indices_in_bounds (n : nat) (m i : Z) :
  (n < 10)%nat ->
  let step := 2 ^ Z.of_nat n in
  0 <= m < step ->
  In i (loop_indices (Z.to_nat FFT_SIZE) m FFT_SIZE (step * 2)) ->
  0 <= i /\ i mod (step * 2) = m
  /\ uint16_t (i + step) = i + step
  /\ i + step < FFT_SIZE
  /\ List.NoDup (loop_indices (Z.to_nat FFT_SIZE) m FFT_SIZE (step * 2)).
Proof.
  intros Hn step Hm Hin.
  destruct (stage_stride n Hn) as [Hs (c & Hc & Hmul)]. fold step in Hs, Hmul.
  assert (Hw : FFT_SIZE + step * 2 <= 65536) by (unfold FFT_SIZE; lia).
  assert (Hp : 0 < step * 2) by lia.
  destruct (loop_indices_elem FFT_SIZE (step * 2) Hp Hw _ _ _
              (proj1 Hm) Hin) as (q & Hq & Hi & Hlt).
  assert (Hj : i + step < FFT_SIZE).
  { assert (q < c) by nia. nia. }
  split; [nia |]. split.
  { symmetry. apply (Z.mod_unique_pos _ _ q); lia. }
  split; [apply uint16_t_id; unfold FFT_SIZE in *; nia |].
  split; [exact Hj |].
  apply loop_indices_NoDup; lia.
Qed.

Lemma butterfly_indices_in_bounds_witness :
  512 + 2 ^ Z.of_nat 0 < FFT_SIZE.
Proof.
  refine (proj1 (proj2 (proj2 (proj2
            (butterfly_indices_in_bounds 0 0 512 _ _ _))))).
  - lia.
  - cbn. lia.
  - vm_compute. tauto.
Defined.

(** Every cell belongs to a butterfly of the stage, and to one only. *)
Lemma cell_owner (n : nat) (c : Z) :
  (n < 10)%nat -> 0 <= c < FFT_SIZE ->
  let step := 2 ^ Z.of_nat n in
  let indices := fun m => loop_indices (Z.to_nat FFT_SIZE) m FFT_SIZE (step * 2) in
  exists m i : Z,
    (0 <= m < step /\ In i (indices m) /\ (c = i \/ c = i + step))
    /\ forall m' i' : Z,
         0 <= m' < step -> In i' (indices m') -> (c = i' \/ c = i' + step) ->
         m' = m /\ i' = i.
Proof.
  intros Hn Hc step indices. unfold indices.
  destruct (stage_stride n Hn) as [Hs _]. fold step in Hs.
  assert (Hw : FFT_SIZE + step * 2 <= 65536) by (unfold FFT_SIZE; lia).
  assert (Hp : 0 < step * 2) by lia.
  pose proof (Z.div_mod c (step * 2) ltac:(lia)) as Hd.
  pose proof (Z.mod_pos_bound c (step * 2) Hp) as Hr.
  assert (Hq : 0 <= c / (step * 2)) by (apply Z.div_pos; lia).
  set (r := c mod (step * 2)) in *. set (d := c / (step * 2)) in *.
  assert (Hcase : forall m' i' : Z,
             0 <= m' < step ->
             In i' (loop_indices (Z.to_nat FFT_SIZE) m' FFT_SIZE (step * 2)) ->
             (c = i' -> r = m') /\ (c = i' + step -> r = m' + step)).
  { intros m' i' Hm' Hin.
    destruct (loop_indices_elem FFT_SIZE (step * 2) Hp Hw _ _ _
                (proj1 Hm') Hin) as (q & Hq' & Hi' & _).
    split; intros He; unfold r; symmetry;
      apply (Z.mod_unique_pos _ _ q); lia. }
  destruct (Z_lt_le_dec r step) as [Hlt | Hge].
  - exists r, c. split.
    + split; [lia |]. split; [| now left].
      replace c with (r + d * (step * 2)) at 1 by lia.
      apply loop_indices_complete; unfold FFT_SIZE in *; lia.
    + intros m' i' Hm' Hin Hor. destruct (Hcase m' i' Hm' Hin) as [H1 H2].
      destruct Hor as [He | He]; [specialize (H1 He) | specialize (H2 He)]; lia.
  - exists (r - step), (c - step). split.
    + split; [lia |]. split; [| right; lia].
      replace (c - step) with (r - step + d * (step * 2)) by lia.
      apply loop_indices_complete; unfold FFT_SIZE in *; lia.
    + intros m' i' Hm' Hin Hor. destruct (Hcase m' i' Hm' Hin) as [H1 H2].
      destruct Hor as [He | He]; [specialize (H1 He) | specialize (H2 He)]; lia.
Qed.

(** X10: in each stage the butterflies partition the buffer: every cell
    [c] is one of the two cells [i], [i + step] of exactly one butterfly
    (group [m], index [i]) of the stage. *)
Theorem butterflies_partition (n : nat) (c : Z) :
  (n < 10)%nat -> 0 <= c < FFT_SIZE ->
  let step := 2 ^ Z.of_nat n in
  let indices := fun m => loop_indices (Z.to_nat FFT_SIZE) m FFT_SIZE (step * 2) in
  exists m i : Z,
    (0 <= m < step /\ In i (indices m) /\ (c = i \/ c = i + step))
    /\ forall m' i' : Z,
         0 <= m' < step -> In i' (indices m') -> (c = i' \/ c = i' + step) ->
         m' = m /\ i' = i.
Proof. exact (cell_owner n c). Qed.

Lemma butterflies_partition_witness :
  exists m i : Z,
    (0 <= m < 2 ^ Z.of_nat 3
     /\ In i (loop_indices (Z.to_nat FFT_SIZE) m FFT_SIZE (2 ^ Z.of_nat 3 * 2))
     /\ (700 = i \/ 700 = i + 2 ^ Z.of_nat 3))
    /\ forall m' i' : Z,
         0 <= m' < 2 ^ Z.of_nat 3 ->
         In i' (loop_indices (Z.to_nat FFT_SIZE) m' FFT_SIZE (2 ^ Z.of_nat 3 * 2)) ->
         (700 = i' \/ 700 = i' + 2 ^ Z.of_nat 3) -> m' = m /\ i' = i.
Proof.
  refine (butterflies_partition 3 700 _ _); [lia | unfold FFT_SIZE; lia].
Defined.

(** ** Butterflies that cannot wrap *)

Lemma FIX_MPY_magnitude (w x : Z) :
  is_int16 w -> Z.abs x <= 13573 ->
  32768 * Z.abs (FIX_MPY w x) <= Z.abs w * Z.abs x + 16384.
Proof.
  intros Hw Hx.
  assert (Hi : is_int16 x) by (unfold is_int16; lia).
  assert (Hne : (w, x) <> (-32768, -32768)).
  { intros H. injection H as _ ->. lia. }
  pose proof (FIX_MPY_rounding w x Hw Hi Hne) as R.
  pose proof (Z.abs_mul w x) as Hm. lia.
Qed.

(** Below the edge case the multiply is the full-width one. *)
Lemma FIX_MPY_wide (w x : Z) :
  is_int16 w -> Z.abs x <= 13573 -> wide_mpy w x = FIX_MPY w x.
Proof.
  intros Hw Hx.
  assert (Hi : is_int16 x) by (unfold is_int16; lia).
  assert (Hne : (w, x) <> (-32768, -32768)).
  { intros H. injection H as _ ->. lia. }
  rewrite (FIX_MPY_exact w x Hw Hi Hne). unfold wide_mpy.
  now rewrite Z.shiftr_div_pow2 by lia.
Qed.

(** The conversions of an unshifted butterfly on small operands return
    their arguments. *)
Lemma butterfly_no_wrap (wr wi step i : Z) (fr fi : list Z) :
  is_int16 wr -> is_int16 wi -> Z.abs wr + Z.abs wi <= 46338 ->
  Z.abs (aget fr i) <= 13573 -> Z.abs (aget fi i) <= 13573 ->
  Z.abs (aget fr (uint16_t (i + step))) <= 13573 ->
  Z.abs (aget fi (uint16_t (i + step))) <= 13573 ->
  butterfly int16_t FIX_MPY false wr wi step i (fr, fi)
    = butterfly (fun z => z) FIX_MPY false wr wi step i (fr, fi)
  /\ butterfly int16_t FIX_MPY false wr wi step i (fr, fi)
     = butterfly (fun z => z) wide_mpy false wr wi step i (fr, fi).
Proof.
  intros Hwr Hwi Hw Hp Hq Hx Hy. unfold butterfly.
  set (j := uint16_t (i + step)) in *.
  rewrite (FIX_MPY_wide wr (aget fr j) Hwr Hx).
  rewrite (FIX_MPY_wide wi (aget fi j) Hwi Hy).
  rewrite (FIX_MPY_wide wr (aget fi j) Hwr Hy).
  rewrite (FIX_MPY_wide wi (aget fr j) Hwi Hx).
  pose proof (FIX_MPY_magnitude wr (aget fr j) Hwr Hx) as M1.
  pose proof (FIX_MPY_magnitude wi (aget fi j) Hwi Hy) as M2.
  pose proof (FIX_MPY_magnitude wr (aget fi j) Hwr Hy) as M3.
  pose proof (FIX_MPY_magnitude wi (aget fr j) Hwi Hx) as M4.
  set (r1 := FIX_MPY wr (aget fr j)) in *.
  set (r2 := FIX_MPY wi (aget fi j)) in *.
  set (r3 := FIX_MPY wr (aget fi j)) in *.
  set (r4 := FIX_MPY wi (aget fr j)) in *.
  assert (A1 : Z.abs wr * Z.abs (aget fr j) <= Z.abs wr * 13573)
    by (apply Z.mul_le_mono_nonneg_l; [apply Z.abs_nonneg | exact Hx]).
  assert (A2 : Z.abs wi * Z.abs (aget fi j) <= Z.abs wi * 13573)
    by (apply Z.mul_le_mono_nonneg_l; [apply Z.abs_nonneg | exact Hy]).
  assert (A3 : Z.abs wr * Z.abs (aget fi j) <= Z.abs wr * 13573)
    by (apply Z.mul_le_mono_nonneg_l; [apply Z.abs_nonneg | exact Hy]).
  assert (A4 : Z.abs wi * Z.abs (aget fr j) <= Z.abs wi * 13573)
    by (apply Z.mul_le_mono_nonneg_l; [apply Z.abs_nonneg | exact Hx]).
  assert (B1 : Z.abs r1 + Z.abs r2 <= 19194) by lia.
  assert (B2 : Z.abs r3 + Z.abs r4 <= 19194) by lia.
  clear M1 M2 M3 M4 A1 A2 A3 A4.
  assert (Htr : int16_t (r1 - r2) = r1 - r2)
    by (apply int16_t_id; unfold is_int16; lia).
  assert (Hti : int16_t (r3 + r4) = r3 + r4)
    by (apply int16_t_id; unfold is_int16; lia).
  rewrite Htr, Hti.
  rewrite !int16_t_id by (unfold is_int16; lia).
  split; reflexivity.
Qed.

(** X11: a butterfly of a stage that does not shift stores no wrapped
    value when the four operand components are at most 13573 in magnitude
    and the twiddle factor satisfies |wr| + |wi| <= 46338, as every factor
    read from the table does: each conversion to [int16_t] in it returns
    its argument. *)
Theorem butterfly_exact_below (wr wi step i : Z) (fr fi : list Z) :
  is_int16 wr -> is_int16 wi -> Z.abs wr + Z.abs wi <= 46338 ->
  Z.abs (aget fr i) <= 13573 -> Z.abs (aget fi i) <= 13573 ->
  Z.abs (aget fr (uint16_t (i + step))) <= 13573 ->
  Z.abs (aget fi (uint16_t (i + step))) <= 13573 ->
  butterfly int16_t FIX_MPY false wr wi step i (fr, fi)
    = butterfly (fun z => z) FIX_MPY false wr wi step i (fr, fi).
Proof.
  intros Hwr Hwi Hw Hp Hq Hx Hy.
  exact (proj1 (butterfly_no_wrap wr wi step i fr fi Hwr Hwi Hw Hp Hq Hx Hy)).
Qed.

Lemma butterfly_exact_below_witness :
  butterfly int16_t FIX_MPY false 23169 (-23169) 4 1
    (replicate 8 13573, replicate 8 13573)
  = butterfly (fun z => z) FIX_MPY false 23169 (-23169) 4 1
      (replicate 8 13573, replicate 8 13573).
Proof.
  refine (butterfly_exact_below 23169 (-23169) 4 1 _ _ _ _ _ _ _ _ _);
    first [unfold is_int16; lia | lia | vm_compute; discriminate].
Defined.

(** ** Q(1,14) arithmetic *)

Lemma int16_t_wrap_high (z : Z) :
  32767 < z <= 98303 -> int16_t z = z - 65536.
Proof.
  intros H. unfold int16_t.
  pose proof (Z.div_mod (z + 32768) 65536 ltac:(lia)) as Hd.
  pose proof (Z.mod_pos_bound (z + 32768) 65536 ltac:(lia)) as Hm. lia.
Qed.

Lemma int16_t_wrap_low (z : Z) :
  -98304 <= z < -32768 -> int16_t z = z + 65536.
Proof.
  intros H. unfold int16_t.
  pose proof (Z.div_mod (z + 32768) 65536 ltac:(lia)) as Hd.
  pose proof (Z.mod_pos_bound (z + 32768) 65536 ltac:(lia)) as Hm. lia.
Qed.

Lemma q_add_clip (a b : Z) :
  is_int16 a -> is_int16 b ->
  Q14.q_add a b = Z.max (-32768) (Z.min 32767 (a + b)).
Proof.
  unfold is_int16. intros Ha Hb.
  unfold Q14.q_add. rewrite int32_t_id by lia.
  destruct (a + b >? 32767) eqn:E1; [| destruct (a + b <? -32768) eqn:E2];
    rewrite int16_t_id by (unfold is_int16; lia); lia.
Qed.

(** X12: [q_add] saturates: on [int16_t] operands it returns the sum
    clipped to [-32768, 32767], hence the exact sum whenever that fits. *)
Theorem q_add_saturates (a b : Z) :
  is_int16 a -> is_int16 b ->
  Q14.q_add a b = Z.max (-32768) (Z.min 32767 (a + b))
  /\ is_int16 (Q14.q_add a b)
  /\ (is_int16 (a + b) -> Q14.q_add a b = a + b).
Proof.
  intros Ha Hb. rewrite (q_add_clip a b Ha Hb).
  unfold is_int16 in *. repeat split; lia.
Qed.

Lemma q_add_saturates_witness :
  Q14.q_add 32767 1 = Z.max (-32768) (Z.min 32767 (32767 + 1)).
Proof.
  refine (proj1 (q_add_saturates 32767 1 _ _)); unfold is_int16; lia.
Defined.

(** X13: [q_sub] does not saturate: it returns the difference when that
    fits in 16 bits and the difference off by 2^16 otherwise; when the
    difference fits, [q_add] undoes it. *)
Theorem q_sub_wraps (a b : Z) :
  is_int16 a -> is_int16 b ->
  is_int16 (Q14.q_sub a b)
  /\ (is_int16 (a - b) -> Q14.q_sub a b = a - b
                          /\ Q14.q_add (Q14.q_sub a b) b = a)
  /\ (32767 < a - b -> Q14.q_sub a b = a - b - 65536)
  /\ (a - b < -32768 -> Q14.q_sub a b = a - b + 65536).
Proof.
  intros Ha Hb. unfold Q14.q_sub.
  split; [apply int16_t_range |]. split; [| split].
  - intros H. rewrite (int16_t_id _ H). split; [reflexivity |].
    rewrite (q_add_clip (a - b) b H Hb). unfold is_int16 in *. lia.
  - intros H. apply int16_t_wrap_high. unfold is_int16 in *. lia.
  - intros H. apply int16_t_wrap_low. unfold is_int16 in *. lia.
Qed.

Lemma q_sub_wraps_witness :
  Q14.q_sub 32767 (-1) = 32767 - -1 - 65536.
Proof.
  refine (proj1 (proj2 (proj2 (q_sub_wraps 32767 (-1) _ _))) _);
    unfold is_int16; lia.
Defined.

(** X14: [q_mul] saturates: on [int16_t] operands it returns
    floor((a*b + 2^13) / 2^14) clipped to [-32768, 32767]; it is
    commutative and 16384, the value 1.0, is its unit. *)
Theorem q_mul_saturates (a b : Z) :
  is_int16 a -> is_int16 b ->
  Q14.q_mul a b = Z.max (-32768) (Z.min 32767 ((a * b + 8192) / 16384))
  /\ is_int16 (Q14.q_mul a b)
  /\ Q14.q_mul a b = Q14.q_mul b a
  /\ Q14.q_mul a 16384 = a.
Proof.
  intros Ha Hb.
  assert (H : forall x y, is_int16 x -> is_int16 y ->
                Q14.q_mul x y
                = Z.max (-32768) (Z.min 32767 ((x * y + 8192) / 16384))).
  { intros x y Hx Hy. pose proof (int16_product_range x y Hx Hy) as Hp.
    unfold Q14.q_mul. change Q14.K with 8192. change Q14.Q with 14.
    rewrite (int32_t_id (x * y)) by lia. rewrite int32_t_id by lia.
    rewrite Z.shiftr_div_pow2 by lia. change (2 ^ 14) with 16384.
    destruct (_ >? 32767) eqn:E1; [| destruct (_ <? -32768) eqn:E2];
      rewrite int16_t_id by (unfold is_int16; lia); lia. }
  assert (H1 : is_int16 16384) by (unfold is_int16; lia).
  rewrite (H a b Ha Hb), (H b a Hb Ha), (H a 16384 Ha H1).
  split; [reflexivity |]. split; [unfold is_int16; lia |].
  split; [now rewrite (Z.mul_comm b a) |].
  rewrite Z.div_add_l by lia. change (8192 / 16384) with 0.
  unfold is_int16 in Ha. lia.
Qed.

Lemma q_mul_saturates_witness :
  Q14.q_mul 32767 32767
    = Z.max (-32768) (Z.min 32767 ((32767 * 32767 + 8192) / 16384)).
Proof.
  refine (proj1 (q_mul_saturates 32767 32767 _ _)); unfold is_int16; lia.
Defined.

(** The quotient and remainder of the truncating division. *)
Lemma quot_facts (t b : Z) :
  b <> 0 ->
  t = b * Z.quot t b + Z.rem t b
  /\ Z.abs (Z.rem t b) < Z.abs b
  /\ (0 <= t -> 0 <= Z.rem t b) /\ (t <= 0 -> Z.rem t b <= 0).
Proof.
  intros Hb. split; [apply Z.quot_rem' |].
  split; [now apply Z.rem_bound_abs |].
  pose proof (Z.rem_sign_mul t b Hb) as Hs.
  pose proof (Z.rem_0_l b Hb) as H0.
  split; intros Ht.
  - destruct (Z.eq_dec t 0) as [-> | Hne]; [lia | nia].
  - destruct (Z.eq_dec t 0) as [-> | Hne]; [lia | nia].
Qed.

(** The two 32-bit steps of [q_div] do not overflow. *)
Lemma q_div_unfold (a b : Z) :
  is_int16 a -> is_int16 b -> b <> 0 ->
  Q14.q_div a b =
    Some (int16_t (Z.quot (if ((0 <=? a) && (0 <=? b)) || ((a <? 0) && (b <? 0))
                           then 16384 * a + b / 4 else 16384 * a - b / 4) b)).
Proof.
  unfold is_int16. intros Ha Hb Hne. unfold Q14.q_div. change Q14.Q with 14.
  rewrite Z.shiftl_mul_pow2, Z.shiftr_div_pow2 by lia.
  change (2 ^ 14) with 16384. change (2 ^ 2) with 4.
  assert (Hq : -8192 <= b / 4 <= 8191).
  { split; [apply Z.div_le_lower_bound | apply Z.lt_succ_r, Z.div_lt_upper_bound];
      lia. }
  rewrite (int32_t_id (a * 16384)) by lia.
  replace (b =? 0) with false by lia.
  replace (((a * 16384 >=? 0) && (b >=? 0)) || ((a * 16384 <? 0) && (b <? 0)))
    with (((0 <=? a) && (0 <=? b)) || ((a <? 0) && (b <? 0))) by lia.
  destruct (((0 <=? a) && (0 <=? b)) || ((a <? 0) && (b <? 0)));
    rewrite int32_t_id by lia; do 3 f_equal; ring.
Qed.

(** X15: [q_div] has no result for the divisor 0 and an [int16_t] result
    otherwise; dividing by 16384, the value 1.0, returns the dividend;
    and when 2^14 * |a| + |b >> 2| < 2^15 * |b| the result q is the
    quotient in Q(1,14) up to the rounding term:
    |q * b - 2^14 * a| < |b| + |b >> 2|. *)
Theorem q_div_behaviour (a b : Z) :
  is_int16 a -> is_int16 b ->
  (b = 0 -> Q14.q_div a b = None)
  /\ (b <> 0 -> exists q, Q14.q_div a b = Some q /\ is_int16 q)
  /\ (b = 16384 -> Q14.q_div a b = Some a)
  /\ (b <> 0 -> 16384 * Z.abs a + Z.abs (b / 4) < 32768 * Z.abs b ->
      exists q, Q14.q_div a b = Some q
                /\ Z.abs (q * b - 16384 * a) < Z.abs b + Z.abs (b / 4)).
Proof.
  intros Ha Hb. split; [| split; [| split]].
  - intros ->. reflexivity.
  - intros Hne. rewrite (q_div_unfold a b Ha Hb Hne).
    eexists. split; [reflexivity | apply int16_t_range].
  - intros ->. rewrite (q_div_unfold a 16384 Ha Hb) by lia.
    change (16384 / 4) with 4096. change (0 <=? 16384) with true.
    change (16384 <? 0) with false.
    rewrite andb_true_r, andb_false_r, orb_false_r.
    f_equal. unfold is_int16 in Ha.
    destruct (0 <=? a) eqn:E.
    + destruct (quot_facts (16384 * a + 4096) 16384 ltac:(lia))
        as (Hq & Hr & Hp & _).
      specialize (Hp ltac:(lia)).
      assert (Z.quot (16384 * a + 4096) 16384 = a) as -> by lia.
      apply int16_t_id. unfold is_int16. lia.
    + destruct (quot_facts (16384 * a - 4096) 16384 ltac:(lia))
        as (Hq & Hr & _ & Hn).
      specialize (Hn ltac:(lia)).
      assert (Z.quot (16384 * a - 4096) 16384 = a) as -> by lia.
      apply int16_t_id. unfold is_int16. lia.
  - intros Hne Hfit. rewrite (q_div_unfold a b Ha Hb Hne).
    eexists. split; [reflexivity |].
    set (t := if ((0 <=? a) && (0 <=? b)) || ((a <? 0) && (b <? 0))
              then 16384 * a + b / 4 else 16384 * a - b / 4).
    assert (Ht : Z.abs (t - 16384 * a) = Z.abs (b / 4)
                 /\ Z.abs t < 32768 * Z.abs b).
    { unfold t. destruct (((0 <=? a) && (0 <=? b)) || ((a <? 0) && (b <? 0)));
        lia. }
    clearbody t. destruct Ht as [Ht1 Ht2].
    destruct (quot_facts t b Hne) as (Hq & Hr & Hp & Hn).
    assert (Hfits : is_int16 (Z.quot t b)).
    { assert (H : Z.abs (Z.quot t b) < 32768).
      { rewrite <- Z.quot_abs by exact Hne.
        rewrite Z.quot_div_nonneg by lia.
        apply Z.div_lt_upper_bound; lia. }
      unfold is_int16. lia. }
    rewrite (int16_t_id _ Hfits). lia.
Qed.

Lemma q_div_behaviour_witness :
  exists q, Q14.q_div 100 (-300) = Some q
            /\ Z.abs (q * -300 - 16384 * 100) < Z.abs (-300) + Z.abs (-300 / 4).
Proof.
  refine (proj2 (proj2 (proj2 (q_div_behaviour 100 (-300) _ _))) _ _);
    first [unfold is_int16; lia | lia | vm_compute; reflexivity].
Defined.

(** ** A stage, cell by cell *)

Lemma fold_left_flat_map {A B C : Type} (f : A -> B -> A) (g : C -> list B) :
  forall (ms : list C) (s : A),
    fold_left f (flat_map g ms) s
      = fold_left (fun s m => fold_left f (g m) s) ms s.
Proof.
  induction ms as [| m ms IH]; intros s; [reflexivity |].
  cbn [flat_map fold_left]. now rewrite fold_left_app, IH.
Qed.

Lemma fold_left_ext_in {A B : Type} (f g : A -> B -> A) :
  forall (l : list B) (s : A),
    (forall x, In x l -> forall s, f s x = g s x) ->
    fold_left f l s = fold_left g l s.
Proof.
  induction l as [| x l IH]; intros s H; [reflexivity |].
  cbn [fold_left]. rewrite (H x (or_introl eq_refl)).
  apply IH. intros y Hy. apply H. now right.
Qed.

Lemma NoDup_flat_map_key (key : Z -> Z) (g : Z -> list Z) :
  forall ms : list Z,
    List.NoDup ms ->
    (forall m, In m ms -> List.NoDup (g m)) ->
    (forall m i, In m ms -> In i (g m) -> key i = m) ->
    List.NoDup (flat_map g ms).
Proof.
  induction ms as [| m ms IH]; intros Hnd Hg Hkey; [constructor |].
  cbn [flat_map]. inversion Hnd as [| ? ? Hnotin Hnd']; subst.
  apply List.NoDup_app.
  - apply Hg. now left.
  - apply IH; [assumption | |].
    + intros m' Hm'. apply Hg. now right.
    + intros m' i Hm' Hi. apply Hkey; [now right | assumption].
  - intros i Hi Hi'. apply in_flat_map in Hi'. destruct Hi' as (m' & Hm' & Hi').
    assert (key i = m) by (apply Hkey; [now left | assumption]).
    assert (key i = m') by (apply Hkey; [now right | assumption]).
    apply Hnotin. congruence.
Qed.

Lemma agree_at_trans (a b d : list Z * list Z) (c : Z) :
  agree_at a b c -> agree_at b d c -> agree_at a d c.
Proof. unfold agree_at. intros [H1 H2] [H3 H4]. split; congruence. Qed.

Section InPlace.

Variable narrow : Z -> Z.
Variable mpy : Z -> Z -> Z.
Variable shift : bool.
Variable step : Z.
Hypothesis step_pos : 0 < step.
Hypothesis step_divides : exists c : Z, 0 < c /\ c * (step * 2) = FFT_SIZE.

(** The four values a butterfly stores, and the cells it leaves alone. *)
Lemma butterfly_cells (wr wi i : Z) (fr fi : list Z) :
  length fr = Z.to_nat FFT_SIZE -> length fi = Z.to_nat FFT_SIZE ->
  0 <= i -> i + step < FFT_SIZE ->
  let j := i + step in
  let tr := narrow (mpy wr (aget fr j) - mpy wi (aget fi j)) in
  let ti := narrow (mpy wr (aget fi j) + mpy wi (aget fr j)) in
  let qr := if shift then narrow (Z.quot (aget fr i) 2) else aget fr i in
  let qi := if shift then narrow (Z.quot (aget fi i) 2) else aget fi i in
  let out := butterfly narrow mpy shift wr wi step i (fr, fi) in
  length (fst out) = Z.to_nat FFT_SIZE /\ length (snd out) = Z.to_nat FFT_SIZE
  /\ aget (fst out) i = narrow (qr + tr) /\ aget (snd out) i = narrow (qi + ti)
  /\ aget (fst out) j = narrow (qr - tr) /\ aget (snd out) j = narrow (qi - ti)
  /\ forall c, 0 <= c -> c <> i -> c <> j -> agree_at out (fr, fi) c.
Proof.
  intros Hfr Hfi Hi Hj. cbv zeta. unfold butterfly, agree_at.
  unfold FFT_SIZE in *. rewrite uint16_t_id by lia. cbn [fst snd].
  rewrite !length_aset.
  split; [assumption | split; [assumption |]].
  split; [| split; [| split; [| split]]].
  - rewrite aget_aset_ne by lia. apply aget_aset_eq. lia.
  - rewrite aget_aset_ne by lia. apply aget_aset_eq. lia.
  - apply aget_aset_eq. rewrite length_aset. lia.
  - apply aget_aset_eq. rewrite length_aset. lia.
  - intros c Hc Hci Hcj. now rewrite !aget_aset_ne by lia.
Qed.

(** What a butterfly stores depends on its two cells only. *)
Lemma butterfly_agree (wr wi i : Z) (s s' : list Z * list Z) :
  length (fst s) = Z.to_nat FFT_SIZE -> length (snd s) = Z.to_nat FFT_SIZE ->
  length (fst s') = Z.to_nat FFT_SIZE -> length (snd s') = Z.to_nat FFT_SIZE ->
  0 <= i -> i + step < FFT_SIZE ->
  agree_at s s' i -> agree_at s s' (i + step) ->
  agree_at (butterfly narrow mpy shift wr wi step i s)
           (butterfly narrow mpy shift wr wi step i s') i
  /\ agree_at (butterfly narrow mpy shift wr wi step i s)
              (butterfly narrow mpy shift wr wi step i s') (i + step).
Proof.
  destruct s as [fr fi], s' as [fr' fi']. cbn [fst snd].
  intros H1 H2 H3 H4 Hi Hj [A1 A2] [A3 A4]. cbn [fst snd] in *.
  destruct (butterfly_cells wr wi i fr fi H1 H2 Hi Hj)
    as (_ & _ & E1 & E2 & E3 & E4 & _).
  destruct (butterfly_cells wr wi i fr' fi' H3 H4 Hi Hj)
    as (_ & _ & F1 & F2 & F3 & F4 & _).
  unfold agree_at. rewrite E1, E2, E3, E4, F1, F2, F3, F4, A1, A2, A3, A4.
  repeat split; reflexivity.
Qed.

Variable w : Z -> Z * Z.

(** Butterflies on pairwise disjoint pairs of cells, run one after the
    other, each store what they would store on the initial buffers. *)
Lemma fold_butterflies :
  forall (l : list Z) (s0 : list Z * list Z),
    length (fst s0) = Z.to_nat FFT_SIZE -> length (snd s0) = Z.to_nat FFT_SIZE ->
    (forall i, In i l -> 0 <= i /\ i + step < FFT_SIZE) ->
    List.NoDup l ->
    (forall i i', In i l -> In i' l -> i <> i' + step) ->
    let run := fun s i => butterfly narrow mpy shift (fst (w i)) (snd (w i)) step i s in
    let out := fold_left run l s0 in
    length (fst out) = Z.to_nat FFT_SIZE /\ length (snd out) = Z.to_nat FFT_SIZE
    /\ (forall i, In i l ->
          agree_at out (run s0 i) i /\ agree_at out (run s0 i) (i + step))
    /\ (forall c, 0 <= c -> (forall i, In i l -> c <> i /\ c <> i + step) ->
          agree_at out s0 c).
Proof.
  induction l as [| i l IH]; intros s0 Hr Hi Hb Hnd Hd run out.
  - subst out. cbn [fold_left]. split; [assumption | split; [assumption |]].
    split; [intros i [] | intros c _ _; split; reflexivity].
  - inversion Hnd as [| ? ? Hnotin Hnd']; subst.
    destruct (Hb i (or_introl eq_refl)) as [Hi0 Hi1].
    pose proof (butterfly_cells (fst (w i)) (snd (w i)) i (fst s0) (snd s0)
                  Hr Hi Hi0 Hi1) as Hc.
    cbv zeta in Hc. rewrite <- surjective_pairing in Hc. fold (run s0 i) in Hc.
    destruct Hc as (L1 & L2 & _ & _ & _ & _ & Hother).
    destruct (IH (run s0 i) L1 L2
                (fun i' H => Hb i' (or_intror H)) Hnd'
                (fun a b Ha Hb' => Hd a b (or_intror Ha) (or_intror Hb')))
      as (M1 & M2 & P1 & P2).
    fold run in P1, P2, M1, M2.
    change (fold_left run (i :: l) s0) with (fold_left run l (run s0 i)) in out.
    fold out in P1, P2, M1, M2.
    assert (Hsep : forall i', In i' l ->
              i' <> i /\ i' <> i + step /\ i' + step <> i).
    { intros i' Hi'. split; [intros ->; contradiction |]. split.
      - apply (Hd i' i); [now right | now left].
      - intros E. apply (Hd i i'); [now left | now right | lia]. }
    split; [exact M1 | split; [exact M2 |]]. split.
    + intros i' [<- | Hi'].
      * split; apply P2; try lia; intros i'' Hi'';
          destruct (Hsep i'' Hi'') as (S1 & S2 & S3); split; lia.
      * destruct (P1 i' Hi') as [Q1 Q2].
        destruct (Hsep i' Hi') as (S1 & S2 & S3).
        destruct (Hb i' (or_intror Hi')) as [B0 B1].
        assert (G1 : agree_at (run s0 i) s0 i')
          by (rewrite (surjective_pairing s0) at 2; apply Hother; lia).
        assert (G2 : agree_at (run s0 i) s0 (i' + step))
          by (rewrite (surjective_pairing s0) at 2; apply Hother; lia).
        destruct (butterfly_agree (fst (w i')) (snd (w i')) i' (run s0 i) s0
                    L1 L2 Hr Hi B0 B1 G1 G2) as [R1 R2].
        split; [exact (agree_at_trans _ _ _ _ Q1 R1)
               | exact (agree_at_trans _ _ _ _ Q2 R2)].
    + intros c Hc Hne.
      destruct (Hne i (or_introl eq_refl)) as [N1 N2].
      assert (G : agree_at (run s0 i) s0 c)
        by (rewrite (surjective_pairing s0) at 2; apply Hother; lia).
      assert (G' : agree_at out (run s0 i) c)
        by (apply P2; [exact Hc | intros i' Hi'; apply Hne; now right]).
      exact (agree_at_trans _ _ _ _ G' G).
Qed.

End InPlace.

Lemma stage_indices_unfold (step : Z) :
  stage_indices step =
    flat_map (fun m => loop_indices (Z.to_nat FFT_SIZE) m FFT_SIZE (step * 2))
             (loop_indices (Z.to_nat FFT_SIZE) 0 step 1).
Proof. reflexivity. Qed.

Section StageIndices.

Variable step : Z.
Hypothesis step_pos : 0 < step.
Hypothesis step_divides : exists c : Z, 0 < c /\ c * (step * 2) = FFT_SIZE.

Lemma step_at_most_half : step <= 512.
Proof. destruct step_divides as (c & Hc & H). unfold FFT_SIZE in H. nia. Qed.

(** An index m + q * 2 * step below the size has its partner inside the
    buffers, and belongs to group m. *)
Lemma index_form (m q i : Z) :
  0 <= m < step -> 0 <= q -> i = m + q * (step * 2) -> i < FFT_SIZE ->
  0 <= i /\ i + step < FFT_SIZE /\ i mod step = m.
Proof.
  intros Hm Hq Hi Hlt. destruct step_divides as (c & Hc & H).
  split; [nia |]. split.
  - assert (q < c) by nia. nia.
  - symmetry. apply (Z.mod_unique_pos _ _ (2 * q)); [lia |]. rewrite Hi. ring.
Qed.

Lemma stage_indices_elem (i : Z) :
  In i (stage_indices step) ->
  exists m q : Z,
    0 <= m < step /\ 0 <= q /\ i = m + q * (step * 2) /\ i < FFT_SIZE
    /\ In i (loop_indices (Z.to_nat FFT_SIZE) m FFT_SIZE (step * 2)).
Proof.
  pose proof step_at_most_half as Hs.
  intros Hin. rewrite stage_indices_unfold in Hin.
  apply in_flat_map in Hin. destruct Hin as (m & Hm & Hi).
  assert (H1 : 0 < 1) by lia.
  assert (H2 : step + 1 <= 65536) by lia.
  destruct (loop_indices_elem step 1 H1 H2 _ 0 m (Z.le_refl 0) Hm)
    as (qm & Hqm & Em & Hlt).
  assert (H3 : 0 < step * 2) by lia.
  assert (H4 : FFT_SIZE + step * 2 <= 65536) by (unfold FFT_SIZE; lia).
  assert (H5 : 0 <= m) by lia.
  destruct (loop_indices_elem FFT_SIZE (step * 2) H3 H4 _ m i H5 Hi)
    as (q & Hq & Ei & Hlt').
  exists m, q. repeat split; try assumption; lia.
Qed.

Lemma stage_indices_In (m i : Z) :
  0 <= m < step ->
  In i (loop_indices (Z.to_nat FFT_SIZE) m FFT_SIZE (step * 2)) ->
  In i (stage_indices step).
Proof.
  pose proof step_at_most_half as Hs.
  intros Hm Hi. rewrite stage_indices_unfold.
  apply in_flat_map. exists m. split; [| exact Hi].
  replace m with (0 + m * 1) by ring.
  apply loop_indices_complete; unfold FFT_SIZE; lia.
Qed.

Lemma stage_indices_bounds (i : Z) :
  In i (stage_indices step) -> 0 <= i /\ i + step < FFT_SIZE.
Proof.
  intros Hin.
  destruct (stage_indices_elem i Hin) as (m & q & Hm & Hq & Hi & Hlt & _).
  destruct (index_form m q i Hm Hq Hi Hlt) as (H1 & H2 & _). now split.
Qed.

Lemma stage_indices_separate (i i' : Z) :
  In i (stage_indices step) -> In i' (stage_indices step) -> i <> i' + step.
Proof.
  intros Hin Hin' E.
  destruct (stage_indices_elem i Hin) as (m & q & Hm & Hq & Hi & _).
  destruct (stage_indices_elem i' Hin') as (m' & q' & Hm' & Hq' & Hi' & _).
  assert (H : step * (2 * (q - q') - 1) = m' - m) by (subst i i'; lia).
  assert (2 * (q - q') - 1 <= -1 \/ 1 <= 2 * (q - q') - 1) as [Hd | Hd] by lia;
    nia.
Qed.

Lemma stage_indices_NoDup : List.NoDup (stage_indices step).
Proof.
  pose proof step_at_most_half as Hs. rewrite stage_indices_unfold.
  apply (NoDup_flat_map_key (fun i => i mod step)).
  - apply loop_indices_NoDup; lia.
  - intros m Hm. assert (H1 : 0 < 1) by lia.
    assert (H2 : step + 1 <= 65536) by lia.
    destruct (loop_indices_elem step 1 H1 H2 _ 0 m (Z.le_refl 0) Hm)
      as (qm & Hqm & Em & Hlt).
    apply loop_indices_NoDup; unfold FFT_SIZE; lia.
  - intros m i Hm Hi.
    assert (H1 : 0 < 1) by lia.
    assert (H2 : step + 1 <= 65536) by lia.
    destruct (loop_indices_elem step 1 H1 H2 _ 0 m (Z.le_refl 0) Hm)
      as (qm & Hqm & Em & Hlt).
    assert (H3 : 0 < step * 2) by lia.
    assert (H4 : FFT_SIZE + step * 2 <= 65536) by (unfold FFT_SIZE; lia).
    assert (H5 : 0 <= m) by lia.
    destruct (loop_indices_elem FFT_SIZE (step * 2) H3 H4 _ m i H5 Hi)
      as (q & Hq & Ei & Hlt').
    assert (Hm' : 0 <= m < step) by lia.
    now destruct (index_form m q i Hm' Hq Ei Hlt') as (_ & _ & ->).
Qed.

Variable narrow : Z -> Z.
Variable mpy : Z -> Z -> Z.

(** The two loops of a stage run the butterflies of [stage_indices], each
    with the wiggle factors of its group. *)
Lemma stage_loops_fold (inverse shift : bool) (k : Z) (s : list Z * list Z) :
  for_loop (Z.to_nat FFT_SIZE) 0 step 1
    (group_body narrow mpy inverse shift k step) s
  = fold_left
      (fun s i =>
         butterfly narrow mpy shift
           (fst (twiddle narrow inverse shift k (i mod step)))
           (snd (twiddle narrow inverse shift k (i mod step))) step i s)
      (stage_indices step) s.
Proof.
  pose proof step_at_most_half as Hs.
  rewrite for_loop_fold, stage_indices_unfold, fold_left_flat_map.
  apply fold_left_ext_in. intros m Hm s'.
  change (group_body narrow mpy inverse shift k step m s')
    with (for_loop (Z.to_nat FFT_SIZE) m FFT_SIZE (step * 2)
            (butterfly narrow mpy shift
               (fst (twiddle narrow inverse shift k m))
               (snd (twiddle narrow inverse shift k m)) step) s').
  rewrite for_loop_fold. apply fold_left_ext_in. intros i Hi s''.
  assert (H1 : 0 < 1) by lia.
  assert (H2 : step + 1 <= 65536) by lia.
  destruct (loop_indices_elem step 1 H1 H2 _ 0 m (Z.le_refl 0) Hm)
    as (qm & Hqm & Em & Hlt).
  assert (H3 : 0 < step * 2) by lia.
  assert (H4 : FFT_SIZE + step * 2 <= 65536) by (unfold FFT_SIZE; lia).
  assert (H5 : 0 <= m) by lia.
  destruct (loop_indices_elem FFT_SIZE (step * 2) H3 H4 _ m i H5 Hi)
    as (q & Hq & Ei & Hlt').
  assert (Hm' : 0 <= m < step) by lia.
  destruct (index_form m q i Hm' Hq Ei Hlt') as (_ & _ & ->). reflexivity.
Qed.

(** A stage is in place: for every butterfly (group m, index i) the stage
    leaves in the cells i and i + step what that butterfly stores when run
    on the buffers as the stage found them. *)
Lemma stage_cells (inverse : bool) (k : Z) (st : state) (m i : Z) :
  st_step st = step ->
  length (st_fr st) = Z.to_nat FFT_SIZE ->
  length (st_fi st) = Z.to_nat FFT_SIZE ->
  0 <= m < step ->
  In i (loop_indices (Z.to_nat FFT_SIZE) m FFT_SIZE (step * 2)) ->
  let st' := stage narrow mpy inverse k st in
  let wf := twiddle narrow inverse (stage_shift st) k m in
  let b := butterfly narrow mpy (stage_shift st) (fst wf) (snd wf) step i
             (st_fr st, st_fi st) in
  length (st_fr st') = Z.to_nat FFT_SIZE
  /\ length (st_fi st') = Z.to_nat FFT_SIZE
  /\ aget (st_fr st') i = aget (fst b) i
  /\ aget (st_fi st') i = aget (snd b) i
  /\ aget (st_fr st') (i + step) = aget (fst b) (i + step)
  /\ aget (st_fi st') (i + step) = aget (snd b) (i + step).
Proof.
  intros Hstep Hr Hi Hm Hin st' wf b.
  assert (Hall : In i (stage_indices step)) by (now apply (stage_indices_In m)).
  assert (Hmod : i mod step = m).
  { destruct (stage_indices_elem i Hall) as (m' & q & Hm' & Hq & Ei & Hlt & _).
    assert (H3 : 0 < step * 2) by lia.
    assert (H4 : FFT_SIZE + step * 2 <= 65536)
      by (pose proof step_at_most_half; unfold FFT_SIZE; lia).
    destruct (loop_indices_elem FFT_SIZE (step * 2) H3 H4 _ m i (proj1 Hm) Hin)
      as (q' & Hq' & Ei' & Hlt').
    now destruct (index_form m q' i Hm Hq' Ei' Hlt') as (_ & _ & ->). }
  subst st' b wf. unfold stage, stage_shift.
  destruct (range_scan _ _ _ _ _) as [shift scale]. cbn [fst].
  rewrite Hstep, stage_loops_fold.
  pose proof (fold_butterflies narrow mpy shift step step_pos
                (fun i => twiddle narrow inverse shift k (i mod step))
                (stage_indices step) (st_fr st, st_fi st) Hr Hi
                stage_indices_bounds stage_indices_NoDup
                stage_indices_separate) as H.
  cbv zeta in H. destruct H as (L1 & L2 & P & _).
  destruct (P i Hall) as [[P1 P2] [P3 P4]]. cbv beta in P1, P2, P3, P4.
  rewrite Hmod in P1, P2, P3, P4.
  destruct (fold_left _ _ _) as [fr' fi']. cbn [fst snd st_fr st_fi] in *.
  auto 10.
Qed.

End StageIndices.

(** X16: every stage works in place.  In the stage with [step] = 2^n, for
    each butterfly (group [m], index [i]) the stage leaves in the cells [i]
    and [i + step] of both buffers what that butterfly, with the wiggle
    factors of group [m], stores when it is run on the buffers as the stage
    found them; the lengths of the buffers are kept. *)
Theorem stage_in_place (inverse : bool) (k : Z) (n : nat) (st : state)
    (m i : Z) :
  (n < 10)%nat -> st_step st = 2 ^ Z.of_nat n ->
  length (st_fr st) = Z.to_nat FFT_SIZE ->
  length (st_fi st) = Z.to_nat FFT_SIZE ->
  0 <= m < 2 ^ Z.of_nat n ->
  In i (loop_indices (Z.to_nat FFT_SIZE) m FFT_SIZE (2 ^ Z.of_nat n * 2)) ->
  let st' := stage int16_t FIX_MPY inverse k st in
  let wf := twiddle int16_t inverse (stage_shift st) k m in
  let b := butterfly int16_t FIX_MPY (stage_shift st) (fst wf) (snd wf)
             (2 ^ Z.of_nat n) i (st_fr st, st_fi st) in
  length (st_fr st') = Z.to_nat FFT_SIZE
  /\ length (st_fi st') = Z.to_nat FFT_SIZE
  /\ aget (st_fr st') i = aget (fst b) i
  /\ aget (st_fi st') i = aget (snd b) i
  /\ aget (st_fr st') (i + 2 ^ Z.of_nat n) = aget (fst b) (i + 2 ^ Z.of_nat n)
  /\ aget (st_fi st') (i + 2 ^ Z.of_nat n) = aget (snd b) (i + 2 ^ Z.of_nat n).
Proof.
  intros Hn Hstep Hr Hi Hm Hin.
  destruct (stage_stride n Hn) as [[Hpos _] Hdiv].
  exact (stage_cells (2 ^ Z.of_nat n) Hpos Hdiv int16_t FIX_MPY inverse k
           st m i Hstep Hr Hi Hm Hin).
Qed.

Lemma stage_in_place_witness :
  aget (st_fr (stage int16_t FIX_MPY false 8 (State three_fr three_fi 4 0))) 5
  = aget (fst (butterfly int16_t FIX_MPY
                 (stage_shift (State three_fr three_fi 4 0))
                 (fst (twiddle int16_t false
                         (stage_shift (State three_fr three_fi 4 0)) 8 1))
                 (snd (twiddle int16_t false
                         (stage_shift (State three_fr three_fi 4 0)) 8 1))
                 (2 ^ Z.of_nat 2) 1 (three_fr, three_fi))) (1 + 2 ^ Z.of_nat 2).
Proof.
  refine (proj1 (proj2 (proj2 (proj2 (proj2
            (stage_in_place false 8 2 (State three_fr three_fi 4 0) 1 1
               _ _ _ _ _ _)))))).
  - lia.
  - reflexivity.
  - reflexivity.
  - reflexivity.
  - cbn. lia.
  - vm_compute. tauto.
Defined.

(** ** Stages that cannot wrap *)

Lemma Sine_entry_range (j : Z) :
  0 <= j < 3 * FFT_SIZE / 4 -> -32766 <= aget Sine j <= 32767.
Proof.
  intros Hj.
  assert (H : forallb (fun j => (-32766 <=? aget Sine j)
                                && (aget Sine j <=? 32767))
                (map Z.of_nat (seq 0 768)) = true) by (vm_compute; reflexivity).
  pose proof (forallb_indices _ _ H j Hj) as Hb. cbn beta in Hb. lia.
Qed.

(** The angle index of group [m] in the stage entered with [step] = 2^n. *)
Lemma twiddle_index_stage (n : nat) (m : Z) :
  (n < 10)%nat -> 0 <= m < 2 ^ Z.of_nat n ->
  0 <= twiddle_index m (FFT_ORDER - Z.of_nat n) < FFT_SIZE / 2.
Proof.
  intros Hn Hm. unfold twiddle_index, FFT_ORDER.
  change (FFT_SIZE / 2) with 512.
  assert (Hj : 0 <= Z.shiftl m (10 - Z.of_nat n - 1) < 512).
  { rewrite Z.shiftl_mul_pow2 by lia.
    assert (Hp : 2 ^ Z.of_nat n * 2 ^ (10 - Z.of_nat n - 1) = 2 ^ 9).
    { rewrite <- Z.pow_add_r by lia. f_equal. lia. }
    assert (Hq : 0 < 2 ^ (10 - Z.of_nat n - 1)) by (apply Z.pow_pos_nonneg; lia).
    change (2 ^ 9) with 512 in Hp. nia. }
  rewrite uint16_t_id; lia.
Qed.

(** Without shift the wiggle factors are table entries, up to sign. *)
Lemma twiddle_no_shift (inverse : bool) (n : nat) (m : Z) :
  (n < 10)%nat -> 0 <= m < 2 ^ Z.of_nat n ->
  let k := FFT_ORDER - Z.of_nat n in
  twiddle int16_t inverse false k m = twiddle (fun z => z) inverse false k m
  /\ is_int16 (fst (twiddle int16_t inverse false k m))
  /\ is_int16 (snd (twiddle int16_t inverse false k m))
  /\ Z.abs (fst (twiddle int16_t inverse false k m))
     + Z.abs (snd (twiddle int16_t inverse false k m)) <= 46338.
Proof.
  intros Hn Hm k. pose proof (twiddle_index_stage n m Hn Hm) as Hj. fold k in Hj.
  pose proof (twiddle_sum_bound _ Hj) as Hs.
  unfold twiddle. cbv zeta. set (j := twiddle_index m k) in *.
  change (FFT_SIZE / 2) with 512 in Hj. change (FFT_SIZE / 4) with 256 in *.
  assert (R1 : -32766 <= aget Sine j <= 32767)
    by (apply Sine_entry_range; change (3 * FFT_SIZE / 4) with 768; lia).
  assert (R2 : -32766 <= aget Sine (j + 256) <= 32767)
    by (apply Sine_entry_range; change (3 * FFT_SIZE / 4) with 768; lia).
  assert (E : int16_t (- aget Sine j) = - aget Sine j)
    by (apply int16_t_id; unfold is_int16; lia).
  rewrite E. cbn [fst snd]. unfold is_int16.
  destruct inverse; repeat split; lia.
Qed.

Lemma state_eq (s t : state) :
  st_fr s = st_fr t -> st_fi s = st_fi t ->
  st_step s = st_step t -> st_scale s = st_scale t -> s = t.
Proof. destruct s, t. cbn. congruence. Qed.

(** Halving, as a shift stage does it, and its magnitude. *)
Lemma halve_magnitude (x : Z) : 2 * Z.abs (Z.quot x 2) <= Z.abs x.
Proof.
  destruct (quot_facts x 2 ltac:(lia)) as (Hq & Hr & Hp & Hn).
  destruct (Z_le_gt_dec 0 x); [specialize (Hp ltac:(lia)) | specialize (Hn ltac:(lia))];
    lia.
Qed.

Lemma FIX_MPY_magnitude_int16 (w x : Z) :
  is_int16 w -> Z.abs x <= 32767 ->
  32768 * Z.abs (FIX_MPY w x) <= Z.abs w * Z.abs x + 16384
  /\ wide_mpy w x = FIX_MPY w x.
Proof.
  intros Hw Hx.
  assert (Hi : is_int16 x) by (unfold is_int16; lia).
  assert (Hne : (w, x) <> (-32768, -32768)).
  { intros H. injection H as _ ->. lia. }
  pose proof (FIX_MPY_rounding w x Hw Hi Hne) as R.
  pose proof (Z.abs_mul w x) as Hm. split; [lia |].
  rewrite (FIX_MPY_exact w x Hw Hi Hne). unfold wide_mpy.
  now rewrite Z.shiftr_div_pow2 by lia.
Qed.

(** The conversions of a butterfly of a shift stage return their arguments
    when the operands are at most 27146 in magnitude. *)
Lemma butterfly_no_wrap_shift (wr wi step i : Z) (fr fi : list Z) :
  is_int16 wr -> is_int16 wi -> Z.abs wr + Z.abs wi <= 23169 ->
  Z.abs (aget fr i) <= 27146 -> Z.abs (aget fi i) <= 27146 ->
  Z.abs (aget fr (uint16_t (i + step))) <= 27146 ->
  Z.abs (aget fi (uint16_t (i + step))) <= 27146 ->
  butterfly int16_t FIX_MPY true wr wi step i (fr, fi)
    = butterfly (fun z => z) wide_mpy true wr wi step i (fr, fi).
Proof.
  intros Hwr Hwi Hw Hp Hq Hx Hy. unfold butterfly.
  set (j := uint16_t (i + step)) in *.
  destruct (FIX_MPY_magnitude_int16 wr (aget fr j) Hwr ltac:(lia)) as [M1 ->].
  destruct (FIX_MPY_magnitude_int16 wi (aget fi j) Hwi ltac:(lia)) as [M2 ->].
  destruct (FIX_MPY_magnitude_int16 wr (aget fi j) Hwr ltac:(lia)) as [M3 ->].
  destruct (FIX_MPY_magnitude_int16 wi (aget fr j) Hwi ltac:(lia)) as [M4 ->].
  set (r1 := FIX_MPY wr (aget fr j)) in *.
  set (r2 := FIX_MPY wi (aget fi j)) in *.
  set (r3 := FIX_MPY wr (aget fi j)) in *.
  set (r4 := FIX_MPY wi (aget fr j)) in *.
  assert (A1 : Z.abs wr * Z.abs (aget fr j) <= Z.abs wr * 27146)
    by (apply Z.mul_le_mono_nonneg_l; [apply Z.abs_nonneg | exact Hx]).
  assert (A2 : Z.abs wi * Z.abs (aget fi j) <= Z.abs wi * 27146)
    by (apply Z.mul_le_mono_nonneg_l; [apply Z.abs_nonneg | exact Hy]).
  assert (A3 : Z.abs wr * Z.abs (aget fi j) <= Z.abs wr * 27146)
    by (apply Z.mul_le_mono_nonneg_l; [apply Z.abs_nonneg | exact Hy]).
  assert (A4 : Z.abs wi * Z.abs (aget fr j) <= Z.abs wi * 27146)
    by (apply Z.mul_le_mono_nonneg_l; [apply Z.abs_nonneg | exact Hx]).
  assert (B1 : Z.abs r1 + Z.abs r2 <= 19194) by lia.
  assert (B2 : Z.abs r3 + Z.abs r4 <= 19194) by lia.
  clear M1 M2 M3 M4 A1 A2 A3 A4.
  pose proof (halve_magnitude (aget fr i)) as H1.
  pose proof (halve_magnitude (aget fi i)) as H2.
  set (hr := Z.quot (aget fr i) 2) in *. set (hi := Z.quot (aget fi i) 2) in *.
  assert (Htr : int16_t (r1 - r2) = r1 - r2)
    by (apply int16_t_id; unfold is_int16; lia).
  assert (Hti : int16_t (r3 + r4) = r3 + r4)
    by (apply int16_t_id; unfold is_int16; lia).
  assert (Hhr : int16_t hr = hr) by (apply int16_t_id; unfold is_int16; lia).
  assert (Hhi : int16_t hi = hi) by (apply int16_t_id; unfold is_int16; lia).
  rewrite Htr, Hti, Hhr, Hhi.
  rewrite !int16_t_id by (unfold is_int16; lia).
  reflexivity.
Qed.

(** In a shift stage the wiggle factors are halved table entries. *)
Lemma twiddle_shift (inverse : bool) (n : nat) (m : Z) :
  (n < 10)%nat -> 0 <= m < 2 ^ Z.of_nat n ->
  let k := FFT_ORDER - Z.of_nat n in
  twiddle int16_t inverse true k m = twiddle (fun z => z) inverse true k m
  /\ is_int16 (fst (twiddle int16_t inverse true k m))
  /\ is_int16 (snd (twiddle int16_t inverse true k m))
  /\ Z.abs (fst (twiddle int16_t inverse true k m))
     + Z.abs (snd (twiddle int16_t inverse true k m)) <= 23169.
Proof.
  intros Hn Hm k. pose proof (twiddle_index_stage n m Hn Hm) as Hj. fold k in Hj.
  pose proof (twiddle_sum_bound _ Hj) as Hs.
  unfold twiddle. cbv zeta. set (j := twiddle_index m k) in *.
  change (FFT_SIZE / 2) with 512 in Hj. change (FFT_SIZE / 4) with 256 in *.
  assert (R1 : -32766 <= aget Sine j <= 32767)
    by (apply Sine_entry_range; change (3 * FFT_SIZE / 4) with 768; lia).
  assert (R2 : -32766 <= aget Sine (j + 256) <= 32767)
    by (apply Sine_entry_range; change (3 * FFT_SIZE / 4) with 768; lia).
  assert (E : int16_t (- aget Sine j) = - aget Sine j)
    by (apply int16_t_id; unfold is_int16; lia).
  rewrite E.
  pose proof (halve_magnitude (aget Sine (j + 256))) as H1.
  pose proof (halve_magnitude (aget Sine j)) as H2.
  pose proof (halve_magnitude (- aget Sine j)) as H3.
  destruct inverse; cbv iota;
    rewrite !int16_t_id by (unfold is_int16; lia); cbn [fst snd];
    unfold is_int16; repeat split; lia.
Qed.

(** A stage whose butterflies store no wrapped value leaves what the
    computation at full width leaves. *)
Lemma stage_exact (inverse : bool) (n : nat) (st : state) (bound : Z) :
  (n < 10)%nat -> st_step st = 2 ^ Z.of_nat n ->
  length (st_fr st) = Z.to_nat FFT_SIZE ->
  length (st_fi st) = Z.to_nat FFT_SIZE ->
  samples_below bound (st_fr st) (st_fi st) ->
  (forall m, 0 <= m < 2 ^ Z.of_nat n ->
     twiddle int16_t inverse (stage_shift st) (FFT_ORDER - Z.of_nat n) m
     = twiddle (fun z => z) inverse (stage_shift st) (FFT_ORDER - Z.of_nat n) m) ->
  (forall m i, 0 <= m < 2 ^ Z.of_nat n ->
     Z.abs (aget (st_fr st) i) <= bound -> Z.abs (aget (st_fi st) i) <= bound ->
     Z.abs (aget (st_fr st) (uint16_t (i + 2 ^ Z.of_nat n))) <= bound ->
     Z.abs (aget (st_fi st) (uint16_t (i + 2 ^ Z.of_nat n))) <= bound ->
     let wf := twiddle int16_t inverse (stage_shift st) (FFT_ORDER - Z.of_nat n) m in
     butterfly int16_t FIX_MPY (stage_shift st) (fst wf) (snd wf)
       (2 ^ Z.of_nat n) i (st_fr st, st_fi st)
     = butterfly (fun z => z) wide_mpy (stage_shift st) (fst wf) (snd wf)
         (2 ^ Z.of_nat n) i (st_fr st, st_fi st)) ->
  stage int16_t FIX_MPY inverse (FFT_ORDER - Z.of_nat n) st
  = stage (fun z => z) wide_mpy inverse (FFT_ORDER - Z.of_nat n) st.
Proof.
  intros Hn Hstep Hr Hi Hsmall Htw Hbf. set (k := FFT_ORDER - Z.of_nat n) in *.
  set (step := 2 ^ Z.of_nat n) in *.
  destruct (stage_stride n Hn) as [[Hpos Hle] Hdiv]. fold step in Hpos, Hle, Hdiv.
  assert (Hcell : forall c, 0 <= c < FFT_SIZE ->
            length (st_fr (stage int16_t FIX_MPY inverse k st)) = Z.to_nat FFT_SIZE
            /\ length (st_fi (stage int16_t FIX_MPY inverse k st)) = Z.to_nat FFT_SIZE
            /\ length (st_fr (stage (fun z => z) wide_mpy inverse k st))
               = Z.to_nat FFT_SIZE
            /\ length (st_fi (stage (fun z => z) wide_mpy inverse k st))
               = Z.to_nat FFT_SIZE
            /\ aget (st_fr (stage int16_t FIX_MPY inverse k st)) c
               = aget (st_fr (stage (fun z => z) wide_mpy inverse k st)) c
            /\ aget (st_fi (stage int16_t FIX_MPY inverse k st)) c
               = aget (st_fi (stage (fun z => z) wide_mpy inverse k st)) c).
  { intros c Hc.
    destruct (cell_owner n c Hn Hc) as (m & i & (Hm & Hin & Hor) & _).
    fold step in Hm, Hin, Hor.
    destruct (stage_cells step Hpos Hdiv int16_t FIX_MPY inverse k st m i
                Hstep Hr Hi Hm Hin) as (L1 & L2 & A1 & A2 & A3 & A4).
    destruct (stage_cells step Hpos Hdiv (fun z => z) wide_mpy inverse k st m i
                Hstep Hr Hi Hm Hin) as (L3 & L4 & B1 & B2 & B3 & B4).
    rewrite <- (Htw m Hm) in B1, B2, B3, B4.
    destruct (stage_indices_bounds step Hpos Hdiv i
                (stage_indices_In step Hpos Hdiv m i Hm Hin)) as [I0 I1].
    assert (Hu : uint16_t (i + step) = i + step)
      by (apply uint16_t_id; unfold FFT_SIZE in I1; lia).
    destruct (Hsmall i ltac:(lia)) as [S1 S2].
    destruct (Hsmall (i + step) ltac:(lia)) as [S3 S4].
    rewrite <- Hu in S3, S4.
    pose proof (Hbf m i Hm S1 S2 S3 S4) as Eb. cbv zeta in Eb.
    rewrite <- Eb in B1, B2, B3, B4.
    split; [exact L1 | split; [exact L2 | split; [exact L3 | split; [exact L4 |]]]].
    destruct Hor as [-> | ->]; split.
    - exact (eq_trans A1 (eq_sym B1)).
    - exact (eq_trans A2 (eq_sym B2)).
    - exact (eq_trans A3 (eq_sym B3)).
    - exact (eq_trans A4 (eq_sym B4)). }
  destruct (Hcell 0 ltac:(unfold FFT_SIZE; lia)) as (L1 & L2 & L3 & L4 & _).
  apply state_eq.
  - apply buffer_eq; [exact L1 | exact L3 |]. intros p Hp.
    now destruct (Hcell p Hp) as (_ & _ & _ & _ & E & _).
  - apply buffer_eq; [exact L2 | exact L4 |]. intros p Hp.
    now destruct (Hcell p Hp) as (_ & _ & _ & _ & _ & E).
  - now rewrite !stage_step.
  - now rewrite !stage_scale.
Qed.

(** X17: a stage entered with every sample component at most 13573 in
    magnitude does not shift and stores no wrapped value: it leaves exactly
    the buffers, step and scale of the computation carried out at full
    width. *)
Theorem stage_exact_below (inverse : bool) (n : nat) (st : state) :
  (n < 10)%nat -> st_step st = 2 ^ Z.of_nat n ->
  length (st_fr st) = Z.to_nat FFT_SIZE ->
  length (st_fi st) = Z.to_nat FFT_SIZE ->
  samples_below 13573 (st_fr st) (st_fi st) ->
  stage_shift st = false
  /\ stage int16_t FIX_MPY inverse (FFT_ORDER - Z.of_nat n) st
     = stage (fun z => z) wide_mpy inverse (FFT_ORDER - Z.of_nat n) st.
Proof.
  intros Hn Hstep Hr Hi Hsmall.
  assert (Hshift : stage_shift st = false).
  { unfold stage_shift. rewrite range_scan_triggers.
    assert (E : triggers_detection st = false).
    { apply triggers_detection_false_iff. intros p Hp.
      destruct (Hsmall p Hp). unfold safe_sample. lia. }
    now rewrite E. }
  split; [exact Hshift |].
  apply (stage_exact inverse n st 13573 Hn Hstep Hr Hi Hsmall); rewrite Hshift.
  - intros m Hm. now destruct (twiddle_no_shift inverse n m Hn Hm) as [E _].
  - intros m i Hm S1 S2 S3 S4 wf.
    destruct (twiddle_no_shift inverse n m Hn Hm) as (_ & W1 & W2 & W3).
    exact (proj2 (butterfly_no_wrap _ _ _ i _ _ W1 W2 W3 S1 S2 S3 S4)).
Qed.

Lemma stage_exact_below_witness :
  stage_shift (State (replicate 1024 13573) (replicate 1024 (-13573)) 4 0)
    = false.
Proof.
  refine (proj1 (stage_exact_below true 2
                   (State (replicate 1024 13573) (replicate 1024 (-13573)) 4 0)
                   _ _ _ _ _)).
  - lia.
  - reflexivity.
  - reflexivity.
  - reflexivity.
  - intros p Hp. unfold aget. cbn [st_fr st_fi].
    rewrite !lookup_total_replicate_2 by (unfold FFT_SIZE in Hp; lia).
    split; reflexivity.
Defined.

(** X18: a stage that shifts stores no wrapped value when every sample
    component it finds is at most 27146 in magnitude: it leaves exactly
    what the computation at full width leaves. *)
Theorem shift_stage_exact_below (inverse : bool) (n : nat) (st : state) :
  (n < 10)%nat -> st_step st = 2 ^ Z.of_nat n ->
  length (st_fr st) = Z.to_nat FFT_SIZE ->
  length (st_fi st) = Z.to_nat FFT_SIZE ->
  stage_shift st = true ->
  samples_below 27146 (st_fr st) (st_fi st) ->
  stage int16_t FIX_MPY inverse (FFT_ORDER - Z.of_nat n) st
  = stage (fun z => z) wide_mpy inverse (FFT_ORDER - Z.of_nat n) st.
Proof.
  intros Hn Hstep Hr Hi Hshift Hsmall.
  apply (stage_exact inverse n st 27146 Hn Hstep Hr Hi Hsmall); rewrite Hshift.
  - intros m Hm. now destruct (twiddle_shift inverse n m Hn Hm) as [E _].
  - intros m i Hm S1 S2 S3 S4 wf.
    destruct (twiddle_shift inverse n m Hn Hm) as (_ & W1 & W2 & W3).
    exact (butterfly_no_wrap_shift _ _ _ i _ _ W1 W2 W3 S1 S2 S3 S4).
Qed.

Lemma shift_stage_exact_below_witness :
  stage int16_t FIX_MPY true (FFT_ORDER - Z.of_nat 2)
    (State (replicate 1024 27146) (replicate 1024 (-27146)) 4 0)
  = stage (fun z => z) wide_mpy true (FFT_ORDER - Z.of_nat 2)
      (State (replicate 1024 27146) (replicate 1024 (-27146)) 4 0).
Proof.
  refine (shift_stage_exact_below true 2
            (State (replicate 1024 27146) (replicate 1024 (-27146)) 4 0)
            _ _ _ _ _ _).
  - lia.
  - reflexivity.
  - reflexivity.
  - reflexivity.
  - vm_compute. reflexivity.
  - intros p Hp. unfold aget. cbn [st_fr st_fi].
    rewrite !lookup_total_replicate_2 by (unfold FFT_SIZE in Hp; lia).
    split; reflexivity.
Defined.
